(** * The sandboxed code executor of the Telegram REPL bot

    A shallow embedding of [src/code_executor.py]: the class [CodeExecutor]
    with its methods [_timeout_handler], [execute] and
    [_create_safe_globals], followed by the properties the specification
    states about them.

    Python code that can raise is written in a small state-and-exception
    monad [Py S A]; [try]/[except]/[finally] are combinators of that monad.
    What the interpreter and third-party libraries do is not part of the
    repository.  [compile_restricted] of RestrictedPython, [__import__] and
    [exec] are fields of the class [Host], over which the development is
    parametric; [signal.signal] and [signal.alarm] are given the behaviour
    the Python documentation describes for a call on the main thread.  The
    alarm handler runs while the unit runs: a timeout is a run of [exec]
    that the handler's [TimeoutError] leaves. *)

From Stdlib Require Import Ascii.
From stdpp Require Import gmap strings list fin_maps pretty.

Set Warnings "-register-all".

Declare Scope py_scope.
Delimit Scope py_scope with py.
Local Open Scope Z_scope.

(** ** Exceptions *)

(** The three [except] clauses of the module test membership of an
    exception in [TimeoutError] (the class this module defines, a subclass of
    [Exception]), in [ImportError] and in [Exception].  An exception object is
    kept as its class name ([type(e).__name__]), its text ([str(e)]) and the
    part of the class hierarchy those tests look at. *)
Inductive exc_kind : Type :=
| KTimeout      (* instance of code_executor.TimeoutError *)
| KImport       (* instance of ImportError (such as ModuleNotFoundError) *)
| KException    (* any other instance of Exception *)
| KBaseOnly.    (* BaseException outside Exception: KeyboardInterrupt, SystemExit, GeneratorExit *)

Record exn : Type := Exn {
  exc_name : string;
  exc_msg : string;
  exc_kind_of : exc_kind
}.

Definition isinstance_TimeoutError (e : exn) : bool :=
  match exc_kind_of e with KTimeout => true | _ => false end.

Definition isinstance_ImportError (e : exn) : bool :=
  match exc_kind_of e with KImport => true | _ => false end.

Definition isinstance_Exception (e : exn) : bool :=
  match exc_kind_of e with KBaseOnly => false | _ => true end.

(** [class TimeoutError(Exception)], lines 17-19. *)
Definition TimeoutError (msg : string) : exn := Exn "TimeoutError" msg KTimeout.

(** ** The monad of Python computations *)

Inductive outcome (A : Type) : Type :=
| Ok (a : A)
| Raised (e : exn).
Arguments Ok {A} a.
Arguments Raised {A} e.

Definition Py (S A : Type) : Type := S -> outcome A * S.

Definition ret {S A : Type} (a : A) : Py S A := fun s => (Ok a, s).

Definition bind {S A B : Type} (c : Py S A) (k : A -> Py S B) : Py S B :=
  fun s =>
    match c s with
    | (Ok a, s') => k a s'
    | (Raised e, s') => (Raised e, s')
    end.

Definition raise {S A : Type} (e : exn) : Py S A := fun s => (Raised e, s).

Definition modify {S : Type} (f : S -> S) : Py S unit := fun s => (Ok tt, f s).

Notation "x <- c ;; k" := (bind c (fun x => k))
  (at level 100, c at next level, right associativity) : py_scope.
Notation "c ;;; k" := (bind c (fun _ => k))
  (at level 100, k at level 200, right associativity) : py_scope.

(** [try: body except C1: h1 except C2: h2 ...]: the first clause whose class
    test accepts the exception handles it; an exception no clause accepts,
    and one raised by a handler, propagate. *)
Definition try_except {S A : Type} (body : Py S A)
    (clauses : list ((exn -> bool) * (exn -> Py S A))) : Py S A :=
  fun s =>
    match body s with
    | (Ok a, s') => (Ok a, s')
    | (Raised e, s') =>
        match List.find (fun cl => fst cl e) clauses with
        | Some cl => snd cl e s'
        | None => (Raised e, s')
        end
    end.

(** [try: body finally: cleanup]: the cleanup runs on every exit of the body;
    an exception of the cleanup replaces the body's outcome. *)
Definition try_finally {S A : Type} (body : Py S A) (cleanup : Py S unit) : Py S A :=
  fun s =>
    let '(o, s') := body s in
    match cleanup s' with
    | (Ok _, s'') => (o, s'')
    | (Raised e, s'') => (Raised e, s'')
    end.

(** ** Text *)

Definition LF : string := String (Ascii.ascii_of_nat 10) EmptyString.

(** [sep.join(items)] *)
Definition str_join (sep : string) (items : list string) : string :=
  String.concat sep items.

(** Truth value of a [str]: the empty string is false. *)
Definition truthy (s : string) : bool :=
  match s with
  | EmptyString => false
  | String _ _ => true
  end.


(** ** The result record, lines 40-44 *)

Record ExecutionResult : Type := mkResult {
  success : bool;
  output : string;
  error : string
}.

Definition initial_result : ExecutionResult :=
  {| success := false; output := ""; error := "" |}.

Record CodeExecutor : Type := { timeout : Z }.

(** [def __init__(self, timeout=10)] *)
Definition CodeExecutor_init (timeout : option Z) : CodeExecutor :=
  {| timeout := default 10 timeout |}.

(** [_timeout_handler], lines 26-28. *)
Definition _timeout_handler {S : Type} (self : CodeExecutor) (signum frame : unit) : Py S unit :=
  raise (TimeoutError "Code execution timed out").

(** Handlers of SIGALRM: the two special values of the [signal] module, the
    bound method [self._timeout_handler], and any other callable. *)
Inductive sig_handler : Type :=
| SIG_DFL
| SIG_IGN
| TimeoutHandler (self : CodeExecutor)
| OtherHandler (id : nat).

Definition pending_after_alarm (seconds : Z) : option Z :=
  if seconds =? 0 then None else Some seconds.

Section Model.

(** Compiled code objects, module objects and the rest of the interpreter's
    state (module attributes, files, the clock, pending signals). *)
Context {code_object module ambient : Type}.

(** Values a namespace holds: a built-in of the host interpreter (named as in
    [builtins]), a string, a module, a dictionary. *)
Inductive pyobj : Type :=
| PyBuiltin (name : string)
| PyStr (s : string)
| PyModule (m : module)
| PyDict (d : gmap string pyobj).

(** What [compile_restricted] hands back, as [execute] tells the cases apart:
    [None] (line 50), an object with an [errors] attribute (line 55), or a
    code object. *)
Inductive compiled : Type :=
| CompiledNone
| CompiledWithErrors (errors : list string)
| CodeObject (c : code_object).

(** One run of [exec] under the two redirections of line 72: the text the
    unit wrote to [sys.stdout] and [sys.stderr], the exception that left
    [exec] if any, the local scope as the unit left it, the state of the rest
    of the interpreter and the pending alarm afterwards. *)
Record run : Type := mkRun {
  stdout_text : string;
  stderr_text : string;
  raised : option exn;
  locals_after : gmap string pyobj;
  ambient_after : ambient;
  alarm_after : option Z
}.

(** What the module takes from outside the sources of the repository:
    [compile_restricted] of RestrictedPython, the interpreter's [__import__]
    and [exec] (given the compiled unit, the globals, the locals, the pending
    alarm and the state of the interpreter), and
    [security_config.ALLOWED_MODULES], imported on line 13 from a module that
    is not among the sources. *)
Class Host : Type := {
  compile_restricted : string -> outcome compiled;
  py_import : string -> outcome module;
  py_exec : code_object -> gmap string pyobj -> gmap string pyobj ->
            option Z -> ambient -> run;
  ALLOWED_MODULES : list string
}.

Context {host_calls : Host}.

(** ** The process around the executor *)

(** [history] is a ghost log of the calls that leave the module; an [exec]
    is logged with the alarm pending when the unit starts. *)
Inductive event : Type :=
| EvCompile (source : string)
| EvImport (module_name : string)
| EvWarning (msg : string)
| EvSignal (h : sig_handler)
| EvAlarm (seconds : Z)
| EvExec (c : code_object) (globals locals : gmap string pyobj) (pending : option Z).

Record world : Type := mkWorld {
  sigalrm : sig_handler;     (* handler installed for SIGALRM *)
  alarm : option Z;          (* seconds of the pending alarm, if one is armed *)
  host : ambient;
  history : list event
}.

Definition log (evs : list event) (w : world) : world :=
  {| sigalrm := sigalrm w; alarm := alarm w; host := host w;
     history := history w ++ evs |}.

Definition call_compile_restricted (source : string) : Py world compiled :=
  fun w => (compile_restricted source, log [EvCompile source] w).

Definition call_import (module_name : string) : Py world module :=
  fun w => (py_import module_name, log [EvImport module_name] w).

Definition logger_warning (msg : string) : Py world unit :=
  modify (log [EvWarning msg]).

(** [signal.signal(signal.SIGALRM, h)] installs [h] and returns the handler it
    replaces.  [execute] is taken to run on the main thread, where the call
    does not raise. *)
Definition signal_signal (h : sig_handler) : Py world sig_handler :=
  fun w => (Ok (sigalrm w),
            {| sigalrm := h; alarm := alarm w; host := host w;
               history := history w ++ [EvSignal h] |}).

(** [signal.alarm(seconds)]: a pending alarm is replaced; zero cancels it and
    arms nothing. *)
Definition signal_alarm (seconds : Z) : Py world unit :=
  fun w => (Ok tt,
            {| sigalrm := sigalrm w; alarm := pending_after_alarm seconds;
               host := host w; history := history w ++ [EvAlarm seconds] |}).

(** Lines 72-77: [exec] under the redirections, then the two [getvalue]
    calls, which are reached only when [exec] returns. *)
Definition exec_redirected (c : code_object) (globals locals : gmap string pyobj)
    : Py world (string * string) :=
  fun w =>
    let r := py_exec c globals locals (alarm w) (host w) in
    let w' := {| sigalrm := sigalrm w; alarm := alarm_after r;
                 host := ambient_after r;
                 history := history w ++ [EvExec c globals locals (alarm w)] |} in
    match raised r with
    | None => (Ok (stdout_text r, stderr_text r), w')
    | Some e => (Raised e, w')
    end.

(** ** [_create_safe_globals], lines 99-150 *)

Definition safe_builtins : gmap string pyobj :=
  list_to_map
    [ ("abs", PyBuiltin "abs"); ("all", PyBuiltin "all"); ("any", PyBuiltin "any");
      ("bin", PyBuiltin "bin"); ("bool", PyBuiltin "bool"); ("chr", PyBuiltin "chr");
      ("dict", PyBuiltin "dict"); ("divmod", PyBuiltin "divmod");
      ("enumerate", PyBuiltin "enumerate"); ("filter", PyBuiltin "filter");
      ("float", PyBuiltin "float"); ("format", PyBuiltin "format");
      ("hex", PyBuiltin "hex"); ("int", PyBuiltin "int"); ("len", PyBuiltin "len");
      ("list", PyBuiltin "list"); ("map", PyBuiltin "map"); ("max", PyBuiltin "max");
      ("min", PyBuiltin "min"); ("oct", PyBuiltin "oct"); ("ord", PyBuiltin "ord");
      ("pow", PyBuiltin "pow"); ("print", PyBuiltin "print"); ("range", PyBuiltin "range");
      ("reversed", PyBuiltin "reversed"); ("round", PyBuiltin "round");
      ("set", PyBuiltin "set"); ("sorted", PyBuiltin "sorted"); ("str", PyBuiltin "str");
      ("sum", PyBuiltin "sum"); ("tuple", PyBuiltin "tuple"); ("type", PyBuiltin "type");
      ("zip", PyBuiltin "zip") ].

(** The loop of lines 140-144 over the names still to visit. *)
Fixpoint import_allowed (names : list string) (safe_modules : gmap string pyobj)
    : Py world (gmap string pyobj) :=
  match names with
  | [] => ret safe_modules
  | module_name :: rest =>
      (safe_modules' <-
         try_except
           (m <- call_import module_name ;;
            ret (<[module_name := PyModule m]> safe_modules))
           [ (isinstance_ImportError,
              fun _ => logger_warning ("Module " +:+ module_name +:+ " not available") ;;;
                       ret safe_modules) ] ;;
       import_allowed rest safe_modules')%py
  end.

(** In the dictionary display of lines 146-150 the entries of [safe_modules]
    come last and so win over the two fixed keys. *)
Definition _create_safe_globals (self : CodeExecutor) : Py world (gmap string pyobj) :=
  (safe_modules <- import_allowed ALLOWED_MODULES ∅ ;;
   ret (safe_modules ∪
        <["__name__" := PyStr "__main__"]>
          (<["__builtins__" := PyDict safe_builtins]> ∅)))%py.

(** ** [execute], lines 30-97 *)

(** The local variable [result] is a dictionary that the method updates in
    place; it is kept next to the world while the body runs, so that a handler
    sees the updates made before the exception. *)
Record frame : Type := mkFrame {
  fw : world;
  result : ExecutionResult
}.

Definition in_world {A : Type} (c : Py world A) : Py frame A :=
  fun fr =>
    let '(o, w') := c (fw fr) in
    (o, {| fw := w'; result := result fr |}).

Definition set_success (b : bool) : Py frame unit :=
  modify (fun fr =>
    {| fw := fw fr;
       result := {| success := b; output := output (result fr);
                    error := error (result fr) |} |}).

Definition set_output (s : string) : Py frame unit :=
  modify (fun fr =>
    {| fw := fw fr;
       result := {| success := success (result fr); output := s;
                    error := error (result fr) |} |}).

Definition set_error (s : string) : Py frame unit :=
  modify (fun fr =>
    {| fw := fw fr;
       result := {| success := success (result fr); output := output (result fr);
                    error := s |} |}).

(** The outer [try] of lines 46-95.  The two [return result] of lines 52 and
    57 end the method; here they end the branch, and [execute] returns
    [result] after the body. *)
Definition execute_body (self : CodeExecutor) (code : string) : Py frame unit :=
  try_except
    (compiled_code <- in_world (call_compile_restricted code) ;;
     match compiled_code with
     | CompiledNone =>
         set_error "Code compilation failed - invalid or restricted syntax"
     | CompiledWithErrors errors =>
         set_error (str_join LF errors)
     | CodeObject c =>
         safe_globals <- in_world (_create_safe_globals self) ;;
         let safe_locals : gmap string pyobj := ∅ in
         old_handler <- in_world (signal_signal (TimeoutHandler self)) ;;
         in_world (signal_alarm (timeout self)) ;;;
         try_finally
           (try_except
              (captured <- in_world (exec_redirected c safe_globals safe_locals) ;;
               let stdout_value := fst captured in
               let stderr_value := snd captured in
               if truthy stderr_value
               then set_error stderr_value
               else (set_success true ;;; set_output stdout_value))
              [ (isinstance_TimeoutError,
                 fun _ => set_error ("Code execution timed out after "
                                     +:+ pretty (timeout self) +:+ " seconds"));
                (isinstance_Exception,
                 fun e => set_error (exc_name e +:+ ": " +:+ exc_msg e)) ])
           (in_world (signal_alarm 0) ;;;
            _ <- in_world (signal_signal old_handler) ;;
            ret tt)
     end)%py
    [ (isinstance_Exception,
       fun e => set_error ("Compilation error: " +:+ exc_msg e)) ].

Definition execute (self : CodeExecutor) (code : string) (w : world)
    : outcome ExecutionResult * world :=
  let '(o, fr) := execute_body self code {| fw := w; result := initial_result |} in
  (match o with
   | Ok _ => Ok (result fr)
   | Raised e => Raised e
   end, fw fr).

(** ** Name lookup in the executed unit *)

(** At the top level of the unit a name is looked up in the local scope, then
    in the globals, then in the dictionary the globals hold under
    [__builtins__]. *)
Definition lookup_name (globals locals : gmap string pyobj) (name : string)
    : option pyobj :=
  match locals !! name with
  | Some v => Some v
  | None =>
      match globals !! name with
      | Some v => Some v
      | None =>
          match globals !! "__builtins__" with
          | Some (PyDict b) => b !! name
          | _ => None
          end
      end
  end.

(** ** What the calls of [execute] amount to *)

(** The outcome and the log of the import loop, without the world. *)
Fixpoint import_value (names : list string) (safe_modules : gmap string pyobj)
    : outcome (gmap string pyobj) :=
  match names with
  | [] => Ok safe_modules
  | module_name :: rest =>
      match py_import module_name with
      | Ok m => import_value rest (<[module_name := PyModule m]> safe_modules)
      | Raised e =>
          if isinstance_ImportError e then import_value rest safe_modules
          else Raised e
      end
  end.

Fixpoint import_log (names : list string) : list event :=
  match names with
  | [] => []
  | module_name :: rest =>
      EvImport module_name ::
      match py_import module_name with
      | Ok _ => import_log rest
      | Raised e =>
          if isinstance_ImportError e
          then EvWarning ("Module " +:+ module_name +:+ " not available") :: import_log rest
          else []
      end
  end.

Definition built_globals : outcome (gmap string pyobj) :=
  match import_value ALLOWED_MODULES ∅ with
  | Ok safe_modules =>
      Ok (safe_modules ∪
          <["__name__" := PyStr "__main__"]>
            (<["__builtins__" := PyDict safe_builtins]> ∅))
  | Raised e => Raised e
  end.

(** The result [execute] reports for a run of the unit, or the exception it
    lets through. *)
Definition report (self : CodeExecutor) (r : run) : outcome ExecutionResult :=
  match raised r with
  | None =>
      if truthy (stderr_text r)
      then Ok {| success := false; output := ""; error := stderr_text r |}
      else Ok {| success := true; output := stdout_text r; error := "" |}
  | Some e =>
      if isinstance_TimeoutError e
      then Ok {| success := false; output := "";
                 error := "Code execution timed out after "
                          +:+ pretty (timeout self) +:+ " seconds" |}
      else if isinstance_Exception e
      then Ok {| success := false; output := "";
                 error := exc_name e +:+ ": " +:+ exc_msg e |}
      else Raised e
  end.

(** The run [execute] starts for a compiled unit: fresh locals, the alarm
    just armed, the interpreter as the call found it. *)
Definition the_run (self : CodeExecutor) (c : code_object)
    (globals : gmap string pyobj) (w : world) : run :=
  py_exec c globals ∅ (pending_after_alarm (timeout self)) (host w).

(** What [except Exception] of line 94 makes of an exception. *)
Definition outer_except (e : exn) : outcome ExecutionResult :=
  if isinstance_Exception e
  then Ok {| success := false; output := "";
             error := "Compilation error: " +:+ exc_msg e |}
  else Raised e.

(** The events of a call that reaches [exec]. *)
Definition run_events (self : CodeExecutor) (code : string) (c : code_object)
    (globals : gmap string pyobj) (w : world) : list event :=
  [EvCompile code] ++ import_log ALLOWED_MODULES ++
  [ EvSignal (TimeoutHandler self); EvAlarm (timeout self);
    EvExec c globals ∅ (pending_after_alarm (timeout self));
    EvAlarm 0; EvSignal (sigalrm w) ].

(** A call that reaches [exec] leaves the handler it found, no alarm, the
    interpreter as the unit left it, and the events of the call. *)
Definition world_after_run (self : CodeExecutor) (code : string) (c : code_object)
    (globals : gmap string pyobj) (w : world) : world :=
  {| sigalrm := sigalrm w; alarm := None;
     host := ambient_after (the_run self c globals w);
     history := history w ++ run_events self code c globals w |}.

Definition is_exec (ev : event) : bool :=
  match ev with EvExec _ _ _ _ => true | _ => false end.

Definition is_alarm (ev : event) : bool :=
  match ev with EvAlarm _ => true | _ => false end.

End Model.

(** * The claims of the specification that the code does not meet as written *)

Section Claims_as_written.

Context {code_object module ambient : Type}.
Context {host_calls : @Host code_object module ambient}.

(** The visible names are exactly the safe built-ins and the allowed modules
    that imported. *)
Definition visible_exactly_capabilities (globals : gmap string (@pyobj module)) : Prop :=
  forall name : string,
    is_Some (lookup_name globals ∅ name) <->
    (is_Some (@safe_builtins module !! name) \/
     (name ∈ ALLOWED_MODULES /\ exists m, py_import name = Ok m)).

(** No fault leaves [execute]. *)
Definition never_propagates (self : CodeExecutor) (code : string) (w : world) : Prop :=
  exists r : ExecutionResult, fst (execute self code w) = Ok r.

Definition compile_fails (code : string) : Prop :=
  match compile_restricted code with
  | Ok (CodeObject _) => False
  | _ => True
  end.

(** The messages of the compiler: the [errors] it returns, or the text of the
    exception it raises. *)
Definition violation_messages (o : outcome (@compiled code_object)) : list string :=
  match o with
  | Ok (CompiledWithErrors errors) => errors
  | Ok _ => []
  | Raised e => [exc_msg e]
  end.

(** A failed compilation is reported with the compiler's messages, joined by
    newlines and nothing else, before anything but the compiler is called. *)
Definition compile_failure_verbatim (self : CodeExecutor) (code : string) (w : world) : Prop :=
  compile_fails code ->
  exists r : ExecutionResult,
    execute self code w = (Ok r, log [EvCompile code] w) /\
    success r = false /\
    error r = str_join LF (violation_messages (compile_restricted code)).


(** The events a call added to the log. *)
Definition events_of_call (w w' : @world code_object module ambient)
    (evs : list (@event code_object module)) : Prop :=
  history w' = history w ++ evs.

End Claims_as_written.

(** * A sample host

    A small interpreter for a few programs, on which the statements below are
    run.  Code objects keep their source, a module is its name, and the state
    of the interpreter is whether an interrupt (SIGINT) is pending. *)

Definition sample_compile (source : string) : outcome (@compiled string) :=
  if String.eqb source "import os; os.system('ls')"
  then Ok (CompiledWithErrors ["Line 1: import of 'os' is forbidden"])
  else if String.eqb source "1 +"
  then Raised (Exn "SyntaxError" "invalid syntax (<string>, line 1)" KException)
  else Ok (CodeObject source).

Definition sample_import (module_name : string) : outcome string :=
  if String.eqb module_name "math" then Ok "math"
  else if String.eqb module_name "sys" then Ok "sys"
  else Raised (Exn "ModuleNotFoundError"
                 ("No module named '" +:+ module_name +:+ "'") KImport).

Definition KeyboardInterrupt : exn := Exn "KeyboardInterrupt" "" KBaseOnly.

Definition sample_exec (c : string) (globals locals : gmap string (@pyobj string))
    (pending : option Z) (interrupt : bool) : @run string bool :=
  if interrupt
  then mkRun "" "" (Some KeyboardInterrupt) locals false pending
  else if String.eqb c "print('Hello, World!')"
  then mkRun ("Hello, World!" +:+ LF) "" None locals false pending
  else if String.eqb c "1/0"
  then mkRun "" "" (Some (Exn "ZeroDivisionError" "division by zero" KException))
             locals false pending
  else if String.eqb c "while True: pass"
  then match pending with
       | Some _ => mkRun "" "" (Some (TimeoutError "Code execution timed out"))
                         locals false None
       | None => mkRun "" "" (Some KeyboardInterrupt) locals false None
       end
  else if String.eqb c "x = 'a'"
  then mkRun "" "" None (<["x" := PyStr "a"]> locals) false pending
  else if String.eqb c "print(x)"
  then match lookup_name globals locals "x" with
       | Some (PyStr s) => mkRun (s +:+ LF) "" None locals false pending
       | _ => mkRun "" "" (Some (Exn "NameError" "name 'x' is not defined" KException))
                    locals false pending
       end
  else if String.eqb c "print('partial'); print('oops', file=sys.stderr)"
  then mkRun ("partial" +:+ LF) ("oops" +:+ LF) None locals false pending
  else mkRun "" "" None locals false pending.

Definition sample_host : @Host string string bool :=
  {| compile_restricted := sample_compile;
     py_import := sample_import;
     py_exec := sample_exec;
     ALLOWED_MODULES := ["math"; "sys"; "numpy"] |}.

(** The executor of the bot, [CodeExecutor()] in bot_handler_new.py. *)
Definition bot_executor : CodeExecutor := CodeExecutor_init None.

Definition quiet_world : @world string string bool :=
  {| sigalrm := SIG_DFL; alarm := None; host := false; history := [] |}.

Definition interrupted_world : @world string string bool :=
  {| sigalrm := SIG_DFL; alarm := None; host := true; history := [] |}.

Definition sample_execute (code : string) (w : @world string string bool)
    : outcome ExecutionResult * @world string string bool :=
  @execute string string bool sample_host bot_executor code w.

(** * The chat handlers that call the executor

    [run_command], [handle_message] and [_execute_and_reply] of the class
    [TelegramBot] in [src/bot_handler_new.py].  A [str] is kept as the bytes
    of its UTF-8 encoding; the operations below agree with Python's on
    encoded text. *)

(** ** Invariants of a computation *)

(** The computation keeps [inv]: from a state that satisfies it, it ends in
    one that does, whether it returns or raises. *)
Definition preserves {S A : Type} (inv : S -> Prop) (c : Py S A) : Prop :=
  forall s : S, inv s -> inv (snd (c s)).

(** ** Operations of [str] *)

Definition LF_char : Ascii.ascii := Ascii.ascii_of_nat 10.
Definition QUOTE_char : Ascii.ascii := Ascii.ascii_of_nat 34.

(** [s.startswith(prefix)] *)
Definition startswith (s prefix : string) : bool := String.prefix prefix s.

(** [s.endswith(suffix)]: some tail of [s] is [suffix]. *)
Fixpoint endswith (s suffix : string) : bool :=
  if String.eqb s suffix then true
  else match s with
       | EmptyString => false
       | String _ rest => endswith rest suffix
       end.

(** [needle in haystack] *)
Fixpoint str_contains (haystack needle : string) : bool :=
  if String.prefix needle haystack then true
  else match haystack with
       | EmptyString => false
       | String _ rest => str_contains rest needle
       end.

(** [s.split(sep)] for a separator of one character: never an empty list. *)
Fixpoint str_split (sep : Ascii.ascii) (s : string) : list string :=
  match s with
  | EmptyString => [EmptyString]
  | String ch rest =>
      if Ascii.eqb ch sep then EmptyString :: str_split sep rest
      else match str_split sep rest with
           | [] => [String ch EmptyString]
           | first :: others => String ch first :: others
           end
  end.

(** [s[1:]] and [s[:-1]] where the character dropped is one byte, and
    [s[1:-1]]; [handle_message] takes [s[1:-1]] of a text whose first and
    last characters are backticks. *)
Definition str_tail (s : string) : string :=
  match s with
  | EmptyString => EmptyString
  | String _ rest => rest
  end.

Fixpoint str_init (s : string) : string :=
  match s with
  | EmptyString => EmptyString
  | String ch rest =>
      match rest with
      | EmptyString => EmptyString
      | String _ _ => String ch (str_init rest)
      end
  end.

Definition slice_inner (s : string) : string := str_init (str_tail s).

(** [s.replace(old, new)] for [old] of one character. *)
Fixpoint str_replace_char (old : Ascii.ascii) (new s : string) : string :=
  match s with
  | EmptyString => EmptyString
  | String ch rest =>
      if Ascii.eqb ch old then new +:+ str_replace_char old new rest
      else String ch (str_replace_char old new rest)
  end.

(** [html.escape(s)] of the standard library, with its default [quote=True]:
    five replacements, the ampersand first. *)
Definition html_escape (s : string) : string :=
  let s := str_replace_char "&"%char "&amp;" s in
  let s := str_replace_char "<"%char "&lt;" s in
  let s := str_replace_char ">"%char "&gt;" s in
  let s := str_replace_char QUOTE_char "&quot;" s in
  str_replace_char "'"%char "&#x27;" s.

(** The characters [str.isspace] accepts, by the bytes of their encoding:
    U+0009-000D, U+001C-0020; U+0085, U+00A0; U+1680, U+2000-200A, U+2028,
    U+2029, U+202F, U+205F, U+3000. *)
Definition is_space1 (b1 : Ascii.ascii) : bool :=
  let n := Ascii.nat_of_ascii b1 in
  ((9 <=? n) && (n <=? 13) || (28 <=? n) && (n <=? 32))%nat.

Definition is_space2 (b1 b2 : Ascii.ascii) : bool :=
  let n1 := Ascii.nat_of_ascii b1 in
  let n2 := Ascii.nat_of_ascii b2 in
  ((n1 =? 194) && ((n2 =? 133) || (n2 =? 160)))%nat.

Definition is_space3 (b1 b2 b3 : Ascii.ascii) : bool :=
  let n1 := Ascii.nat_of_ascii b1 in
  let n2 := Ascii.nat_of_ascii b2 in
  let n3 := Ascii.nat_of_ascii b3 in
  ((n1 =? 225) && (n2 =? 154) && (n3 =? 128)
   || (n1 =? 226) && (n2 =? 128) &&
      ((128 <=? n3) && (n3 <=? 138) || (n3 =? 168) || (n3 =? 169) || (n3 =? 175))
   || (n1 =? 226) && (n2 =? 129) && (n3 =? 159)
   || (n1 =? 227) && (n2 =? 128) && (n3 =? 128))%nat.

(** [s.lstrip()] *)
Fixpoint py_lstrip (s : string) : string :=
  match s with
  | EmptyString => EmptyString
  | String b1 rest1 =>
      if is_space1 b1 then py_lstrip rest1
      else match rest1 with
           | EmptyString => s
           | String b2 rest2 =>
               if is_space2 b1 b2 then py_lstrip rest2
               else match rest2 with
                    | EmptyString => s
                    | String b3 rest3 =>
                        if is_space3 b1 b2 b3 then py_lstrip rest3 else s
                    end
           end
  end.

(** [s.rstrip()]: what is left of [s] before its trailing white space. *)
Fixpoint py_rstrip (s : string) : string :=
  match s with
  | EmptyString => EmptyString
  | String ch rest =>
      if String.eqb (py_lstrip s) EmptyString then EmptyString
      else String ch (py_rstrip rest)
  end.

(** [s.strip()] *)
Definition py_strip (s : string) : string := py_rstrip (py_lstrip s).

(** A text of white space only. *)
Inductive blank : string -> Prop :=
| blank_empty : blank EmptyString
| blank_1 b1 s : is_space1 b1 = true -> blank s -> blank (String b1 s)
| blank_2 b1 b2 s :
    is_space2 b1 b2 = true -> blank s -> blank (String b1 (String b2 s))
| blank_3 b1 b2 b3 s :
    is_space3 b1 b2 b3 = true -> blank s ->
    blank (String b1 (String b2 (String b3 s))).

(** The characters [html.escape] replaces, the ampersand apart. *)
Definition markup_chars : list Ascii.ascii :=
  ["<"%char; ">"%char; QUOTE_char; "'"%char].

Fixpoint has_char (c : Ascii.ascii) (s : string) : bool :=
  match s with
  | EmptyString => false
  | String ch rest => Ascii.eqb ch c || has_char c rest
  end.

(** ** The chat *)

Inductive parse_mode : Type := MARKDOWN.

(** The calls to the Telegram API: [chat.send_action(action)] and
    [message.reply_text(text, parse_mode=...)]. *)
Inductive chat_call : Type :=
| SendAction (action : string)
| ReplyText (text : string) (mode : option parse_mode).

Inductive bot_event : Type :=
| Called (c : chat_call)
| LoggedError (msg : string).

(** [update.message] and [update.message.text] may be [None];
    [context.args] is a list or [None]. *)
Record Message : Type := { text : option string }.
Record Update : Type := { message : option Message }.
Record CallbackContext : Type := { args : option (list string) }.

(** Of the attributes of [TelegramBot] the three handlers read
    [code_executor] only. *)
Record TelegramBot : Type := { code_executor : CodeExecutor }.

(** [TelegramBot.__init__], line 22. *)
Definition TelegramBot_init : TelegramBot :=
  {| code_executor := CodeExecutor_init None |}.

Definition FENCE_OPENERS : list string := ["```python"; "```py"; "```"].

(** [python_keywords], line 156. *)
Definition python_keywords : list string :=
  ["print"; "import"; "def"; "class"; "for"; "while"; "if"; "="].

Definition AttributeError (attribute : string) : exn :=
  Exn "AttributeError"
      ("'NoneType' object has no attribute '" +:+ attribute +:+ "'") KException.

Definition IndexError : exn := Exn "IndexError" "list index out of range" KException.

Section Bot.

Context {code_object module ambient net : Type}.
Context {host_calls : @Host code_object module ambient}.

(** What the handlers take from outside the repository: the Telegram API,
    whose calls may raise, and the case mapping of [str.lower]. *)
Class BotHost : Type := {
  telegram : chat_call -> net -> outcome unit * net;
  str_lower : string -> string
}.

Context {bot_host : BotHost}.

(** The process of the executor, the state of the connection, and a ghost
    log of the calls to the chat and to the logger. *)
Record bot_world : Type := mkBotWorld {
  process : @world code_object module ambient;
  network : net;
  bot_log : list bot_event
}.

Definition in_process {A : Type} (c : Py (@world code_object module ambient) A)
    : Py bot_world A :=
  fun bw =>
    let '(o, w') := c (process bw) in
    (o, {| process := w'; network := network bw; bot_log := bot_log bw |}).

Definition call_telegram (c : chat_call) : Py bot_world unit :=
  fun bw =>
    let '(o, n') := telegram c (network bw) in
    (o, {| process := process bw; network := n';
           bot_log := bot_log bw ++ [Called c] |}).

Definition logger_error (msg : string) : Py bot_world unit :=
  modify (fun bw =>
    {| process := process bw; network := network bw;
       bot_log := bot_log bw ++ [LoggedError msg] |}).

(** [update.message.reply_text(text, parse_mode=mode)] *)
Definition reply_text (update : Update) (text : string) (mode : option parse_mode)
    : Py bot_world unit :=
  match message update with
  | None => raise (AttributeError "reply_text")
  | Some _ => call_telegram (ReplyText text mode)
  end.

(** [update.message.chat.send_action(action)] *)
Definition send_action (update : Update) (action : string) : Py bot_world unit :=
  match message update with
  | None => raise (AttributeError "chat")
  | Some _ => call_telegram (SendAction action)
  end.

(** [_execute_and_reply], lines 165-199. *)
Definition _execute_and_reply (self : TelegramBot) (update : Update) (code : string)
    : Py bot_world unit :=
  (send_action update "typing" ;;;
   try_except
     (result <- in_process (execute (code_executor self) code) ;;
      if success result
      then
        let output := output result in
        let formatted_output :=
          if truthy (py_strip output)
          then "✅ *Output:*" +:+ LF +:+ "```" +:+ LF +:+ html_escape output
               +:+ LF +:+ "```"
          else "✅ *Code executed successfully* (no output)" in
        reply_text update formatted_output (Some MARKDOWN)
      else
        let error_message := error result in
        let formatted_error :=
          "❌ *Error:*" +:+ LF +:+ "```" +:+ LF +:+ html_escape error_message
          +:+ LF +:+ "```" in
        reply_text update formatted_error (Some MARKDOWN))
     [ (isinstance_Exception,
        fun e =>
          logger_error ("Unexpected error during code execution: " +:+ exc_msg e) ;;;
          reply_text update
            ("❌ *Unexpected error:*" +:+ LF +:+ "```" +:+ LF
             +:+ html_escape (exc_msg e) +:+ LF +:+ "```")
            (Some MARKDOWN)) ])%py.

(** [run_command], lines 113-124. *)
Definition run_command (self : TelegramBot) (update : Update)
    (context : CallbackContext) : Py bot_world unit :=
  match args context with
  | None | Some [] =>
      reply_text update
        ("❌ Please provide Python code to execute." +:+ LF
         +:+ "Example: `/run print('Hello, World!')`")
        (Some MARKDOWN)
  | Some (arg :: others) =>
      let code := str_join " " (arg :: others) in
      _execute_and_reply self update code
  end.

(** [lines[0]] and [lines[-1]] *)
Definition first_item (lines : list string) : Py bot_world string :=
  match lines with
  | [] => raise IndexError
  | line :: _ => ret line
  end.

Definition last_item (lines : list string) : Py bot_world string :=
  match last lines with
  | None => raise IndexError
  | Some line => ret line
  end.

(** [handle_message], lines 126-163. *)
Definition handle_message (self : TelegramBot) (update : Update)
    (context : CallbackContext) : Py bot_world unit :=
  match message update with
  | None => ret tt
  | Some msg =>
      match text msg with
      | None => ret tt
      | Some message_text =>
          if negb (truthy message_text) then ret tt
          else if startswith message_text "```" && endswith message_text "```"
          then
            let lines := str_split LF_char message_text in
            if (1 <? length lines)%nat
            then
              (first_line <- first_item lines ;;
               let lines1 :=
                 if existsb (String.eqb (py_strip first_line)) FENCE_OPENERS
                 then drop 1 lines else lines in
               last_line <- last_item lines1 ;;
               let lines2 :=
                 if String.eqb (py_strip last_line) "```"
                 then removelast lines1 else lines1 in
               let code := str_join LF lines2 in
               _execute_and_reply self update code)%py
            else ret tt
          else if startswith message_text "`" && endswith message_text "`"
          then
            let code := slice_inner message_text in
            _execute_and_reply self update code
          else if existsb (fun keyword => str_contains (str_lower message_text) keyword)
                          python_keywords
          then _execute_and_reply self update message_text
          else
            reply_text update
              ("🤔 This doesn't look like Python code. Use `/run <code>` or wrap your code in backticks."
               +:+ LF +:+ "Type `/help` for more information.")
              None
      end
  end.

(** The chat calls among the events of the log. *)
Definition replies_of (evs : list bot_event) : list string :=
  omap (fun ev => match ev with
                  | Called (ReplyText t _) => Some t
                  | _ => None
                  end) evs.

(** A text without the characters [html.escape] replaces by entities other
    than the ampersand. *)
Definition escaped (t : string) : Prop :=
  Forall (fun c => has_char c t = false) markup_chars.

(** Since the world [bw] the log has grown by events whose replies are all
    escaped. *)
Definition escaped_since (bw bw' : bot_world) : Prop :=
  exists evs : list bot_event,
    bot_log bw' = bot_log bw ++ evs /\ Forall escaped (replies_of evs).

End Bot.

(** ** A sample chat

    The connection counts the calls and never fails; [str.lower] is given for
    the letters A to Z. *)

Definition sample_lower_char (ch : Ascii.ascii) : Ascii.ascii :=
  let n := Ascii.nat_of_ascii ch in
  if ((65 <=? n) && (n <=? 90))%nat then Ascii.ascii_of_nat (n + 32) else ch.

Fixpoint sample_lower (s : string) : string :=
  match s with
  | EmptyString => EmptyString
  | String ch rest => String (sample_lower_char ch) (sample_lower rest)
  end.

Definition sample_bot_host : @BotHost nat :=
  {| telegram := fun _ n => (Ok tt, S n); str_lower := sample_lower |}.

Definition quiet_chat : @bot_world string string bool nat :=
  {| process := quiet_world; network := O; bot_log := [] |}.

Definition text_update (message_text : string) : Update :=
  {| message := Some {| text := Some message_text |} |}.

Definition no_args : CallbackContext := {| args := None |}.

Definition sample_handle_message (message_text : string)
    : outcome unit * @bot_world string string bool nat :=
  @handle_message _ _ _ _ sample_host sample_bot_host TelegramBot_init
    (text_update message_text) no_args quiet_chat.

Definition sample_execute_and_reply (code : string)
    : outcome unit * @bot_world string string bool nat :=
  @_execute_and_reply _ _ _ _ sample_host sample_bot_host TelegramBot_init
    (text_update code) code quiet_chat.

(** ** A second sample host

    Its compiler hands back an empty list of [errors] for the source [?], and
    the import of one of its allowed modules raises a [ValueError]. *)

Definition odd_compile (source : string) : outcome (@compiled string) :=
  if String.eqb source "?" then Ok (CompiledWithErrors [])
  else Ok (CodeObject source).

Definition odd_import (module_name : string) : outcome string :=
  if String.eqb module_name "math" then Ok "math"
  else Raised (Exn "ValueError" "numpy.dtype size changed" KException).

Definition odd_host : @Host string string bool :=
  {| compile_restricted := odd_compile;
     py_import := odd_import;
     py_exec := sample_exec;
     ALLOWED_MODULES := ["math"; "pandas"] |}.

(** [CodeExecutor(timeout=0)] *)
Definition no_deadline_executor : CodeExecutor := CodeExecutor_init (Some 0).

(** A block of code as a chat message. *)
Definition fenced (opener body : string) : string :=
  opener +:+ LF +:+ body +:+ LF +:+ "```".

(** * Properties *)

Section Properties.

Context {code_object module ambient : Type}.
Context {host_calls : @Host code_object module ambient}.

Local Abbreviation World := (@world code_object module ambient).
Local Abbreviation Event := (@event code_object module).
Local Abbreviation Namespace := (gmap string (@pyobj module)).

Implicit Types (w : World) (self : CodeExecutor) (code : string).

(** ** The log *)

Lemma log_nil w : log [] w = w.
Proof. destruct w as [h a amb evs]. unfold log; simpl. by rewrite app_nil_r. Qed.

Lemma log_log (evs1 evs2 : list Event) w :
  log evs2 (log evs1 w) = log (evs1 ++ evs2) w.
Proof. unfold log; simpl. by rewrite app_assoc. Qed.

(** ** The import loop *)

Lemma import_allowed_eq (names : list string) (acc : Namespace) w :
  import_allowed names acc w = (import_value names acc, log (import_log names) w).
Proof.
  revert acc w. induction names as [|name rest IH]; intros acc w.
  - simpl. unfold ret. by rewrite log_nil.
  - simpl. unfold bind, try_except, call_import, logger_warning, modify, ret; simpl.
    destruct (py_import name) as [m|e]; simpl.
    + rewrite IH, log_log. reflexivity.
    + destruct (isinstance_ImportError e); simpl.
      * rewrite IH, !log_log. reflexivity.
      * reflexivity.
Qed.

Lemma create_safe_globals_eq self w :
  _create_safe_globals self w = (built_globals, log (import_log ALLOWED_MODULES) w).
Proof.
  unfold _create_safe_globals, built_globals, bind.
  rewrite import_allowed_eq.
  destruct (import_value ALLOWED_MODULES ∅); reflexivity.
Qed.

(** The environment does not depend on the world it is built in. *)
Lemma create_safe_globals_outcome self w : fst (_create_safe_globals self w) = built_globals.
Proof. by rewrite create_safe_globals_eq. Qed.

(** An exception that leaves the import loop was raised by the import of an
    allowed module and is no [ImportError]. *)
Lemma import_value_raised (names : list string) (acc : Namespace) (e : exn) :
  import_value names acc = Raised e ->
  exists name, name ∈ names /\ py_import name = Raised e /\ isinstance_ImportError e = false.
Proof.
  revert acc. induction names as [|name rest IH]; intros acc; simpl; [done|].
  destruct (py_import name) as [m|e'] eqn:Himp.
  - intros H. destruct (IH _ H) as (n & Hn & Hr). exists n. split; [by right | done].
  - destruct (isinstance_ImportError e') eqn:Hk.
    + intros H. destruct (IH _ H) as (n & Hn & Hr). exists n. split; [by right | done].
    + intros [= ->]. exists name. split; [by left | done].
Qed.

(** When every failing import fails with an [ImportError] the loop returns. *)
Lemma import_value_ok (names : list string) (acc : Namespace) :
  (forall name e, name ∈ names -> py_import name = Raised e ->
                  isinstance_ImportError e = true) ->
  exists safe_modules, import_value names acc = Ok safe_modules.
Proof.
  revert acc. induction names as [|name rest IH]; intros acc Hall; simpl; [by eexists|].
  assert (Hrest : forall n e, n ∈ rest -> py_import n = Raised e ->
                              isinstance_ImportError e = true).
  { intros n e Hn. apply Hall. by right. }
  destruct (py_import name) as [m|e] eqn:Himp; [by apply IH|].
  rewrite (Hall name e); [by apply IH | by left | done].
Qed.

(** The modules the loop binds: those already bound and the names whose
    import returned. *)
Lemma import_value_lookup (names : list string) (acc safe_modules : Namespace) (n : string) :
  import_value names acc = Ok safe_modules ->
  is_Some (safe_modules !! n) <->
  (is_Some (acc !! n) \/ (n ∈ names /\ exists m, py_import n = Ok m)).
Proof.
  revert acc. induction names as [|name rest IH]; intros acc; simpl.
  - intros [= ->]. split; [by left|]. intros [H|[H _]]; [done|]. by apply elem_of_nil in H.
  - destruct (py_import name) as [m|e] eqn:Himp.
    + intros H. rewrite (IH _ H). rewrite lookup_insert_is_Some.
      split.
      * intros [[->|[_ Hacc]]|[Hin Hm]].
        -- right. split; [by left | by exists m].
        -- by left.
        -- right. split; [by right | done].
      * intros [Hacc|[Hin Hm]].
        -- destruct (decide (name = n)) as [->|Hne]; left; [by left | by right].
        -- apply elem_of_cons in Hin as [->|Hin].
           ++ left. by left.
           ++ right. done.
    + destruct (isinstance_ImportError e); [|done].
      intros H. rewrite (IH _ H). split.
      * intros [Hacc|[Hin Hm]]; [by left|]. right. split; [by right | done].
      * intros [Hacc|[Hin Hm]]; [by left|].
        apply elem_of_cons in Hin as [->|Hin].
        -- destruct Hm as [m Hm]. congruence.
        -- right. done.
Qed.

(** ** The calls of [execute] *)

Lemma execute_compile_raised self code w (e : exn) :
  compile_restricted code = Raised e ->
  execute self code w = (outer_except e, log [EvCompile code] w).
Proof.
  intros Hc. unfold execute, execute_body, try_except, bind, in_world,
    call_compile_restricted, outer_except; simpl.
  rewrite Hc; simpl. destruct (isinstance_Exception e); reflexivity.
Qed.

Lemma execute_compiled_none self code w :
  compile_restricted code = Ok CompiledNone ->
  execute self code w =
  (Ok {| success := false; output := "";
         error := "Code compilation failed - invalid or restricted syntax" |},
   log [EvCompile code] w).
Proof.
  intros Hc. unfold execute, execute_body, try_except, bind, in_world,
    call_compile_restricted; simpl.
  rewrite Hc. reflexivity.
Qed.

Lemma execute_compiled_errors self code w (errors : list string) :
  compile_restricted code = Ok (CompiledWithErrors errors) ->
  execute self code w =
  (Ok {| success := false; output := ""; error := str_join LF errors |},
   log [EvCompile code] w).
Proof.
  intros Hc. unfold execute, execute_body, try_except, bind, in_world,
    call_compile_restricted; simpl.
  rewrite Hc. reflexivity.
Qed.

Lemma execute_globals_raised self code w (c : code_object) (e : exn) :
  compile_restricted code = Ok (CodeObject c) ->
  built_globals = Raised e ->
  execute self code w =
  (outer_except e, log ([EvCompile code] ++ import_log ALLOWED_MODULES) w).
Proof.
  intros Hc Hg. unfold execute, execute_body, try_except, bind, in_world,
    call_compile_restricted, outer_except; simpl.
  rewrite Hc; simpl. rewrite create_safe_globals_eq, Hg, log_log; simpl.
  destruct (isinstance_Exception e); reflexivity.
Qed.

Lemma execute_run self code w (c : code_object) (g : Namespace) :
  compile_restricted code = Ok (CodeObject c) ->
  built_globals = Ok g ->
  execute self code w = (report self (the_run self c g w), world_after_run self code c g w).
Proof.
  intros Hc Hg. unfold execute, execute_body; simpl.
  unfold try_except at 1. unfold bind at 1. unfold in_world at 1.
  unfold call_compile_restricted; simpl. rewrite Hc.
  unfold bind at 1. unfold in_world at 1. simpl.
  rewrite create_safe_globals_eq, Hg, log_log.
  unfold report, world_after_run, the_run, run_events, try_finally, try_except,
    bind, in_world, signal_signal, signal_alarm, exec_redirected, set_error,
    set_success, set_output, modify, ret, log; simpl.
  destruct (raised _) as [e|] eqn:Hr; simpl.
  - destruct (isinstance_TimeoutError e) eqn:Ht; simpl.
    + rewrite <- !app_assoc. reflexivity.
    + destruct (isinstance_Exception e) eqn:He; simpl;
        rewrite ?He; simpl; rewrite <- !app_assoc; reflexivity.
  - destruct (truthy _); simpl; rewrite <- !app_assoc; reflexivity.
Qed.

(** ** Text *)

Lemma str_app_assoc (a b c : string) : (a +:+ b) +:+ c = a +:+ (b +:+ c).
Proof.
  induction a as [|ch a IH]; [reflexivity|].
  change (String ch ((a +:+ b) +:+ c) = String ch (a +:+ (b +:+ c))).
  by rewrite IH.
Qed.






(** ** The environment of the executed unit *)

Lemma lookup_fixed_keys (n : string) :
  is_Some ((<["__name__" := PyStr "__main__"]>
              (<["__builtins__" := PyDict safe_builtins]> ∅) : Namespace) !! n) <->
  n = "__builtins__" \/ n = "__name__".
Proof.
  rewrite !lookup_insert_is_Some, lookup_empty. split.
  - intros [->|[_ [->|[_ H]]]]; [by right | by left | by destruct H].
  - intros [-> | ->]; [right; split; [done | by left] | by left].
Qed.

(** C1, as amended: the names visible to the executed unit are exactly the
    enumerated safe built-ins, the allowed modules whose import returned, and
    the two fixed entries [__builtins__] and [__name__].  When every failing
    import of an allowed module fails with an [ImportError] (and the two fixed
    keys are not names of allowed modules), [_create_safe_globals] returns,
    having only imported and logged warnings, and the name of a module whose
    import failed is absent from the environment. *)
Theorem C1_safe_globals_namespace self w :
  (forall name e, name ∈ ALLOWED_MODULES -> py_import name = Raised e ->
                  isinstance_ImportError e = true) ->
  "__builtins__" ∉ ALLOWED_MODULES ->
  "__name__" ∉ ALLOWED_MODULES ->
  exists g : Namespace,
    _create_safe_globals self w = (Ok g, log (import_log ALLOWED_MODULES) w) /\
    (forall name : string,
       is_Some (lookup_name g ∅ name) <->
       (is_Some (@safe_builtins module !! name) \/
        (name ∈ ALLOWED_MODULES /\ exists m, py_import name = Ok m) \/
        name = "__builtins__" \/ name = "__name__")) /\
    (forall name e, name ∈ ALLOWED_MODULES -> py_import name = Raised e ->
                    g !! name = None).
Proof.
  intros Himp Hb Hn.
  destruct (import_value_ok ALLOWED_MODULES ∅ Himp) as [sm Hsm].
  pose proof (fun n => import_value_lookup ALLOWED_MODULES ∅ sm n Hsm) as Hlk.
  assert (Hmod : forall n, is_Some (sm !! n) <->
                           (n ∈ ALLOWED_MODULES /\ exists m, py_import n = Ok m)).
  { intros n. rewrite Hlk, lookup_empty. split; [|by right].
    intros [H|H]; [by destruct H | done]. }
  exists (sm ∪ <["__name__" := PyStr "__main__"]>
                 (<["__builtins__" := PyDict safe_builtins]> ∅)).
  split; [|split].
  - rewrite create_safe_globals_eq. unfold built_globals. by rewrite Hsm.
  - intros name. unfold lookup_name. rewrite lookup_empty.
    assert (Hsb : sm !! "__builtins__" = None).
    { apply eq_None_not_Some. rewrite Hmod. by intros [H _]. }
    assert (Hg : (sm ∪ <["__name__" := PyStr "__main__"]>
                    (<["__builtins__" := PyDict safe_builtins]> ∅)) !! "__builtins__"
                 = Some (PyDict safe_builtins)).
    { rewrite lookup_union_r by done. by simplify_map_eq. }
    rewrite Hg.
    destruct ((sm ∪ _) !! name) as [v|] eqn:Hname.
    + split; [intros _|by eexists].
      assert (Hs : is_Some ((sm ∪ <["__name__" := PyStr "__main__"]>
                    (<["__builtins__" := PyDict safe_builtins]> ∅)) !! name))
        by (by rewrite Hname).
      rewrite lookup_union_is_Some, Hmod, lookup_fixed_keys in Hs. tauto.
    + apply lookup_union_None in Hname as [Hn1 Hn2].
      split; [by left|]. intros [H|[H|H]]; [done| |].
      * apply Hmod in H. rewrite Hn1 in H. by destruct H.
      * apply lookup_fixed_keys in H. rewrite Hn2 in H. by destruct H.
  - intros name e Hin Hr. apply lookup_union_None. split.
    + apply eq_None_not_Some. rewrite Hmod. intros [_ [m Hm]]. congruence.
    + apply eq_None_not_Some. rewrite lookup_fixed_keys.
      intros [-> | ->]; done.
Qed.

(** ** The result of [execute] *)

Lemma timeout_handler_raises {S : Type} self (signum fr : unit) (s : S) :
  _timeout_handler self signum fr s = (Raised (TimeoutError "Code execution timed out"), s).
Proof. reflexivity. Qed.



(** C3, as amended: [execute] returns a result, or lets through an exception
    that is not an instance of [Exception] (KeyboardInterrupt, SystemExit),
    raised by the compiler, by the import of an allowed module or by the
    unit. *)
Theorem C3_only_base_exceptions_propagate self code w :
  (exists r : ExecutionResult, fst (execute self code w) = Ok r) \/
  (exists e : exn,
     fst (execute self code w) = Raised e /\
     isinstance_Exception e = false /\
     (compile_restricted code = Raised e \/
      (exists name, name ∈ ALLOWED_MODULES /\ py_import name = Raised e) \/
      (exists c g, compile_restricted code = Ok (CodeObject c) /\
                   fst (_create_safe_globals self w) = Ok g /\
                   raised (the_run self c g w) = Some e))).
Proof.
  destruct (compile_restricted code) as [[|errors|c]|e] eqn:Hc.
  - left. rewrite (execute_compiled_none _ _ _ Hc). by eexists.
  - left. rewrite (execute_compiled_errors _ _ _ _ Hc). by eexists.
  - destruct (@built_globals _ _ _ host_calls) as [g|e] eqn:Hg.
    + rewrite (execute_run self code w c g Hc Hg). unfold report; simpl.
      destruct (raised (the_run self c g w)) as [e|] eqn:Hr.
      * destruct (isinstance_TimeoutError e); [left; by eexists|].
        destruct (isinstance_Exception e) eqn:He; [left; by eexists|].
        right. exists e. split; [done|]. split; [done|]. right. right.
        exists c, g. by rewrite create_safe_globals_outcome.
      * destruct (truthy _); left; by eexists.
    + rewrite (execute_globals_raised self code w c e Hc Hg). unfold outer_except; simpl.
      destruct (isinstance_Exception e) eqn:He; [left; by eexists|].
      right. exists e. split; [done|]. split; [done|]. right. left.
      unfold built_globals in Hg.
      destruct (import_value ALLOWED_MODULES ∅) as [sm|e'] eqn:Hv; [done|].
      injection Hg as ->.
      destruct (import_value_raised _ _ _ Hv) as (name & Hin & Hr & _). by exists name.
  - rewrite (execute_compile_raised self code w e Hc). unfold outer_except; simpl.
    destruct (isinstance_Exception e) eqn:He; [left; by eexists|].
    right. exists e. split; [done|]. split; [done|]. by left.
Qed.


(** C6, as amended: when the compiler returns an object with [errors], the
    result is a failure whose error is those messages joined by newlines;
    when it returns [None], the error is the fixed text of line 51; when it
    raises an [Exception], the error is ["Compilation error: "] followed by
    the text of the exception.  On the three paths only the compiler was
    called: no import, no handler, no alarm. *)
Theorem C6_compile_failure self code w :
  (forall errors, compile_restricted code = Ok (CompiledWithErrors errors) ->
     execute self code w =
     (Ok {| success := false; output := ""; error := str_join LF errors |},
      log [EvCompile code] w)) /\
  (compile_restricted code = Ok CompiledNone ->
     execute self code w =
     (Ok {| success := false; output := "";
            error := "Code compilation failed - invalid or restricted syntax" |},
      log [EvCompile code] w)) /\
  (forall e, compile_restricted code = Raised e -> isinstance_Exception e = true ->
     execute self code w =
     (Ok {| success := false; output := "";
            error := "Compilation error: " +:+ exc_msg e |},
      log [EvCompile code] w)).
Proof.
  split; [|split].
  - intros errors Hc. by apply execute_compiled_errors.
  - intros Hc. by apply execute_compiled_none.
  - intros e Hc He. rewrite (execute_compile_raised self code w e Hc).
    unfold outer_except. by rewrite He.
Qed.

(** The results [execute] can return. *)
Lemma execute_result_cases self code w (r : ExecutionResult) (w' : World) :
  execute self code w = (Ok r, w') ->
  (success r = false /\ output r = "") \/ (success r = true /\ error r = "").
Proof.
  destruct (compile_restricted code) as [[|errors|c]|e] eqn:Hc.
  - rewrite (execute_compiled_none _ _ _ Hc). intros [= <- _]. by left.
  - rewrite (execute_compiled_errors _ _ _ _ Hc). intros [= <- _]. by left.
  - destruct (@built_globals _ _ _ host_calls) as [g|e] eqn:Hg.
    + rewrite (execute_run self code w c g Hc Hg). unfold report.
      destruct (raised _) as [e|].
      * destruct (isinstance_TimeoutError e); [intros [= <- _]; by left|].
        destruct (isinstance_Exception e); [intros [= <- _]; by left|done].
      * destruct (truthy _); intros [= <- _]; [by left | by right].
    + rewrite (execute_globals_raised self code w c e Hc Hg). unfold outer_except.
      destruct (isinstance_Exception e); [intros [= <- _]; by left|done].
  - rewrite (execute_compile_raised self code w e Hc). unfold outer_except.
    destruct (isinstance_Exception e); [intros [= <- _]; by left|done].
Qed.



(** C10: in the result [execute] returns, [success] false implies an empty
    [output]. *)
Theorem C10_failure_no_output self code w (r : ExecutionResult) (w' : World) :
  execute self code w = (Ok r, w') -> success r = false -> output r = "".
Proof.
  intros Hx Hs. destruct (execute_result_cases self code w r w' Hx) as [[_ Ho]|[Ht _]].
  - done.
  - congruence.
Qed.

(** ** The timer *)

(** In a list with one element that satisfies [P], a split at an element that
    satisfies [P] is that one. *)
Lemma split_at_unique {A : Type} (P : A -> bool) (l1 l2 l1' l2' : list A) (x x' : A) :
  l1 ++ x :: l2 = l1' ++ x' :: l2' ->
  Forall (fun a => P a = false) l1 ->
  Forall (fun a => P a = false) l2 ->
  P x' = true ->
  l1' = l1 /\ x' = x /\ l2' = l2.
Proof.
  revert l1'. induction l1 as [|a l1 IH]; intros l1' Heq H1 H2 Hx'.
  - destruct l1' as [|b l1']; simpl in Heq.
    + by injection Heq as -> ->.
    + injection Heq as -> ->.
      apply Forall_app in H2 as [_ H2]. apply Forall_cons in H2 as [H2 _]. congruence.
  - apply Forall_cons in H1 as [Ha H1].
    destruct l1' as [|b l1']; simpl in Heq.
    + injection Heq as -> _. congruence.
    + injection Heq as -> Heq.
      destruct (IH l1' Heq H1 H2 Hx') as (-> & -> & ->). done.
Qed.

Lemma import_log_no_exec (names : list string) :
  Forall (fun ev : Event => is_exec ev = false) (import_log names).
Proof.
  induction names as [|name rest IH]; simpl; [done|].
  apply Forall_cons. split; [done|].
  destruct (py_import name) as [m|e]; [done|].
  destruct (isinstance_ImportError e); [|done].
  apply Forall_cons. by split.
Qed.

Lemma import_log_no_alarm (names : list string) :
  Forall (fun ev : Event => is_alarm ev = false) (import_log names).
Proof.
  induction names as [|name rest IH]; simpl; [done|].
  apply Forall_cons. split; [done|].
  destruct (py_import name) as [m|e]; [done|].
  destruct (isinstance_ImportError e); [|done].
  apply Forall_cons. by split.
Qed.

Lemma no_exec_no_split (evs before after : list Event)
    (c : code_object) (g l : Namespace) (p : option Z) :
  Forall (fun ev : Event => is_exec ev = false) evs ->
  evs <> before ++ EvExec c g l p :: after.
Proof.
  intros Hall ->. apply Forall_app in Hall as [_ Hall].
  by apply Forall_cons in Hall as [Hall _].
Qed.

Lemma no_alarm_not_elem (evs : list Event) (s : Z) :
  Forall (fun ev : Event => is_alarm ev = false) evs -> EvAlarm s ∉ evs.
Proof.
  intros Hall Hin. rewrite Forall_forall in Hall. by specialize (Hall _ Hin).
Qed.

(** C5: in a call of [execute] with a non-zero timeout, the unit starts with
    the alarm of [timeout] seconds pending, the call before [exec] is
    [signal.alarm(timeout)] and the call after it is [signal.alarm(0)]; and on
    every exit, with a result or with an exception, no alarm is pending, or
    the call never touched the timer. *)
Theorem C5_timer_lifecycle self code w :
  timeout self <> 0 ->
  exists evs : list Event,
    events_of_call w (snd (execute self code w)) evs /\
    (forall c g l p before after,
       evs = before ++ EvExec c g l p :: after ->
       p = Some (timeout self) /\
       (exists before', before = before' ++ [EvAlarm (timeout self)]) /\
       (exists after', after = EvAlarm 0 :: after')) /\
    (alarm (snd (execute self code w)) = None \/
     (alarm (snd (execute self code w)) = alarm w /\ forall s, EvAlarm s ∉ evs)).
Proof.
  intros Ht.
  assert (Hquiet : forall evs : list Event,
            Forall (fun ev : Event => is_exec ev = false) evs ->
            Forall (fun ev : Event => is_alarm ev = false) evs ->
            events_of_call w (log evs w) evs /\
            (forall c g l p before after,
               evs = before ++ EvExec c g l p :: after ->
               p = Some (timeout self) /\
               (exists before', before = before' ++ [EvAlarm (timeout self)]) /\
               (exists after', after = EvAlarm 0 :: after')) /\
            (alarm (log evs w) = None \/
             (alarm (log evs w) = alarm w /\ forall s, EvAlarm s ∉ evs))).
  { intros evs Hx Ha. split; [done|]. split.
    - intros c g l p before after Heq. by destruct (no_exec_no_split evs before after c g l p Hx).
    - right. split; [done|]. intros s. by apply no_alarm_not_elem. }
  destruct (compile_restricted code) as [[|errors|c]|e] eqn:Hc.
  - exists [EvCompile code]. rewrite (execute_compiled_none _ _ _ Hc). simpl.
    apply Hquiet; by repeat constructor.
  - exists [EvCompile code]. rewrite (execute_compiled_errors _ _ _ _ Hc). simpl.
    apply Hquiet; by repeat constructor.
  - destruct (@built_globals _ _ _ host_calls) as [g|e] eqn:Hg.
    + exists (run_events self code c g w).
      rewrite (execute_run self code w c g Hc Hg). simpl.
      split; [done|]. split; [|by left].
      intros c' g' l' p' before after Heq.
      unfold run_events in Heq.
      assert (Hsplit :
        ([EvCompile code] ++ import_log ALLOWED_MODULES ++
           [EvSignal (TimeoutHandler self); EvAlarm (timeout self)]) ++
        EvExec c g ∅ (pending_after_alarm (timeout self)) ::
          [EvAlarm 0; EvSignal (sigalrm w)]
        = before ++ EvExec c' g' l' p' :: after).
      { rewrite <- Heq. by rewrite <- !app_assoc. }
      apply (split_at_unique is_exec) in Hsplit as (-> & Hev & ->); [| | |done].
      * injection Hev as -> -> -> ->. split.
        -- unfold pending_after_alarm. by destruct (Z.eqb_spec (timeout self) 0).
        -- split; [|by eexists].
           exists ([EvCompile code] ++ import_log ALLOWED_MODULES ++
                     [EvSignal (TimeoutHandler self)]).
           by rewrite <- !app_assoc.
      * apply Forall_app. split; [by repeat constructor|].
        apply Forall_app. split; [apply import_log_no_exec | by repeat constructor].
      * by repeat constructor.
    + exists ([EvCompile code] ++ import_log ALLOWED_MODULES).
      rewrite (execute_globals_raised self code w c e Hc Hg). simpl.
      apply Hquiet.
      * apply Forall_cons. split; [done | apply import_log_no_exec].
      * apply Forall_cons. split; [done | apply import_log_no_alarm].
  - exists [EvCompile code]. rewrite (execute_compile_raised self code w e Hc). simpl.
    apply Hquiet; by repeat constructor.
Qed.

(** ** Successive calls *)

(** The import loop binds modules only. *)
Lemma import_value_values (names : list string) (acc sm : Namespace)
    (k : string) (v : @pyobj module) :
  import_value names acc = Ok sm -> sm !! k = Some v ->
  acc !! k = Some v \/ exists m, v = PyModule m.
Proof.
  revert acc. induction names as [|name rest IH]; intros acc; simpl.
  - intros [= ->] H. by left.
  - destruct (py_import name) as [m|e].
    + intros Hv Hl. destruct (IH _ Hv Hl) as [H|H]; [|by right].
      apply lookup_insert_Some in H as [[_ <-]|[_ H]]; [right; by exists m | by left].
    + destruct (isinstance_ImportError e); [apply IH | done].
Qed.

Lemma built_globals_lookup_fresh (g : Namespace) (x : string) :
  @built_globals _ _ _ host_calls = Ok g ->
  g !! x = None -> @safe_builtins module !! x = None ->
  lookup_name g ∅ x = None.
Proof.
  unfold built_globals.
  destruct (import_value ALLOWED_MODULES ∅) as [sm|e] eqn:Hv; [|done].
  intros [= <-] Hx Hb. unfold lookup_name. rewrite lookup_empty, Hx.
  destruct ((sm ∪ _) !! "__builtins__") as [[| | |b]|] eqn:Hbs; try done.
  apply lookup_union_Some_raw in Hbs as [Hbs|[_ Hbs]].
  - destruct (import_value_values _ _ _ _ _ Hv Hbs) as [H|[m H]]; [|done].
    by rewrite lookup_empty in H.
  - rewrite lookup_insert_ne, lookup_insert_eq in Hbs by done.
    by injection Hbs as <-.
Qed.

(** The outcome of a call depends on the world through the state of the
    interpreter only. *)
Lemma execute_outcome_host self code (w1 w2 : World) :
  host w1 = host w2 -> fst (execute self code w1) = fst (execute self code w2).
Proof.
  intros Hh.
  destruct (compile_restricted code) as [[|errors|c]|e] eqn:Hc.
  - by rewrite !(execute_compiled_none _ _ _ Hc).
  - by rewrite !(execute_compiled_errors _ _ _ _ Hc).
  - destruct (@built_globals _ _ _ host_calls) as [g|e] eqn:Hg.
    + rewrite !(execute_run self code _ c g Hc Hg). simpl.
      unfold the_run. by rewrite Hh.
    + by rewrite !(execute_globals_raised self code _ c e Hc Hg).
  - by rewrite !(execute_compile_raised self code _ e Hc).
Qed.

(** Every [exec] of a call gets the empty local scope and the environment
    [_create_safe_globals] builds. *)
Lemma execute_exec_events self code w :
  exists evs : list Event,
    history (snd (execute self code w)) = history w ++ evs /\
    forall c g l p, EvExec c g l p ∈ evs ->
      l = ∅ /\ @built_globals _ _ _ host_calls = Ok g /\
      compile_restricted code = Ok (CodeObject c).
Proof.
  assert (Hquiet : forall evs : list Event,
            Forall (fun ev : Event => is_exec ev = false) evs ->
            forall c g l p, EvExec c g l p ∈ evs ->
              l = ∅ /\ @built_globals _ _ _ host_calls = Ok g /\
              compile_restricted code = Ok (CodeObject c)).
  { intros evs Hall c g l p Hin. rewrite Forall_forall in Hall.
    by specialize (Hall _ Hin). }
  destruct (compile_restricted code) as [[|errors|c]|e] eqn:Hc.
  - exists [EvCompile code]. rewrite (execute_compiled_none _ _ _ Hc). simpl.
    split; [done|]. apply Hquiet. by repeat constructor.
  - exists [EvCompile code]. rewrite (execute_compiled_errors _ _ _ _ Hc). simpl.
    split; [done|]. apply Hquiet. by repeat constructor.
  - destruct (@built_globals _ _ _ host_calls) as [g|e] eqn:Hg.
    + exists (run_events self code c g w).
      rewrite (execute_run self code w c g Hc Hg). simpl. split; [done|].
      intros c' g' l' p' Hin. unfold run_events in Hin.
      apply elem_of_app in Hin as [Hin|Hin].
      { apply list_elem_of_singleton in Hin. done. }
      apply elem_of_app in Hin as [Hin|Hin].
      { pose proof (import_log_no_exec ALLOWED_MODULES) as Hall.
        rewrite Forall_forall in Hall. by specialize (Hall _ Hin). }
      repeat (apply elem_of_cons in Hin as [Hin|Hin]; [try done|]).
      * by injection Hin as -> -> -> ->.
      * by apply elem_of_nil in Hin.
    + exists ([EvCompile code] ++ import_log ALLOWED_MODULES).
      rewrite (execute_globals_raised self code w c e Hc Hg). simpl.
      split; [done|]. apply Hquiet.
      apply Forall_cons. split; [done | apply import_log_no_exec].
  - exists [EvCompile code]. rewrite (execute_compile_raised self code w e Hc). simpl.
    split; [done|]. apply Hquiet. by repeat constructor.
Qed.

(** C9: a second call with the same source returns what the first returned
    when the first left the state of the interpreter as it found it; and
    after any call, a later call runs its unit with the empty local scope and
    a newly built environment, so that a name (such as one the earlier call
    bound) that is not in that environment and is no safe built-in is not
    found. *)
Theorem C9_independent_calls self code code2 w :
  let w1 := snd (execute self code w) in
  (host w1 = host w ->
   fst (execute self code w1) = fst (execute self code w)) /\
  (forall evs c g l p,
     events_of_call w1 (snd (execute self code2 w1)) evs ->
     EvExec c g l p ∈ evs ->
     l = ∅ /\
     fst (_create_safe_globals self w1) = Ok g /\
     forall x : string,
       g !! x = None -> @safe_builtins module !! x = None ->
       lookup_name g l x = None).
Proof.
  intros w1. split.
  - apply execute_outcome_host.
  - intros evs c g l p Hev Hin.
    destruct (execute_exec_events self code2 w1) as (evs' & Hh & Hx).
    unfold events_of_call in Hev. rewrite Hh in Hev.
    apply app_inv_head in Hev as <-.
    destruct (Hx c g l p Hin) as (-> & Hg & _).
    split; [done|]. split; [by rewrite create_safe_globals_outcome|].
    intros x. by apply built_globals_lookup_fresh.
Qed.

End Properties.

(** * The statements on the sample host *)

Lemma sample_allowed_imports (name : string) (e : exn) :
  name ∈ @ALLOWED_MODULES _ _ _ sample_host ->
  @py_import _ _ _ sample_host name = Raised e ->
  isinstance_ImportError e = true.
Proof.
  simpl. intros Hin.
  repeat (apply elem_of_cons in Hin as [->|Hin]; [by intros [= <-]|]).
  by apply elem_of_nil in Hin.
Qed.

Lemma sample_not_allowed (name : string) :
  bool_decide (name ∈ @ALLOWED_MODULES _ _ _ sample_host) = false ->
  name ∉ @ALLOWED_MODULES _ _ _ sample_host.
Proof. intros H Hin. by rewrite (bool_decide_eq_true_2 _ Hin) in H. Qed.

(** C1 on the sample host: [numpy] does not import and is not bound, [math]
    is, and [open] of the host's built-ins is not visible. *)
Lemma C1_witness :
  exists g : gmap string (@pyobj string),
    fst (@_create_safe_globals _ _ _ sample_host bot_executor quiet_world) = Ok g /\
    is_Some (lookup_name g ∅ "math") /\
    g !! "numpy" = None /\
    ~ is_Some (lookup_name g ∅ "open").
Proof.
  destruct (@C1_safe_globals_namespace _ _ _ sample_host bot_executor quiet_world
              sample_allowed_imports
              (sample_not_allowed "__builtins__" eq_refl)
              (sample_not_allowed "__name__" eq_refl))
    as (g & Hg & Hvis & Habs).
  exists g. split; [by rewrite Hg|]. split; [|split].
  - apply Hvis. right. left. split; [by left | by exists "math"].
  - apply (Habs "numpy" (Exn "ModuleNotFoundError" "No module named 'numpy'" KImport)).
    + do 2 right. by left.
    + reflexivity.
  - rewrite Hvis. intros [H|[[H _]|[H|H]]]; try done.
    + vm_compute in H. by destruct H.
    + by apply (sample_not_allowed "open" eq_refl).
Defined.

(** C1 as written fails: [__name__] resolves, to ["__main__"], and is neither
    a safe built-in nor an allowed module. *)
Lemma C1_counterexample :
  exists g : gmap string (@pyobj string),
    fst (@_create_safe_globals _ _ _ sample_host bot_executor quiet_world) = Ok g /\
    lookup_name g ∅ "__name__" = Some (PyStr "__main__") /\
    ~ @visible_exactly_capabilities _ _ _ sample_host g.
Proof.
  eexists. split; [vm_compute; reflexivity|]. split; [vm_compute; reflexivity|].
  intros Hvis. destruct (Hvis "__name__") as [Hname _].
  destruct Hname as [H|[H _]].
  - eexists. vm_compute. reflexivity.
  - vm_compute in H. by destruct H.
  - by apply (sample_not_allowed "__name__" eq_refl).
Qed.

(** The environment of the sample host. *)
Lemma sample_globals_built :
  exists g : gmap string (@pyobj string),
    fst (@_create_safe_globals _ _ _ sample_host bot_executor quiet_world) = Ok g.
Proof. eexists. vm_compute. reflexivity. Defined.


(** C3 as written fails: an interrupt that arrives while the unit runs leaves
    [execute] as KeyboardInterrupt. *)
Lemma C3_counterexample :
  fst (sample_execute "2 + 2" interrupted_world) = Raised KeyboardInterrupt /\
  ~ @never_propagates _ _ _ sample_host bot_executor "2 + 2" interrupted_world.
Proof.
  split; [vm_compute; reflexivity|].
  intros [r Hr]. vm_compute in Hr. discriminate.
Qed.


(** C5 on the sample host: the timer after a unit that timed out. *)
Lemma C5_witness :
  timeout bot_executor <> 0 /\
  alarm (snd (sample_execute "while True: pass" quiet_world)) = None.
Proof.
  assert (Ht : timeout bot_executor <> 0) by discriminate.
  split; [exact Ht|].
  destruct (@C5_timer_lifecycle _ _ _ sample_host bot_executor "while True: pass"
              quiet_world Ht) as (evs & _ & _ & [H|[H _]]).
  - exact H.
  - exact H.
Defined.

(** C6 as written fails: on a syntax error the error text carries the prefix
    of line 95 before the compiler's message. *)
Lemma C6_counterexample :
  @compile_fails _ _ _ sample_host "1 +" /\
  fst (sample_execute "1 +" quiet_world) =
    Ok {| success := false; output := "";
          error := "Compilation error: invalid syntax (<string>, line 1)" |} /\
  ~ @compile_failure_verbatim _ _ _ sample_host bot_executor "1 +" quiet_world.
Proof.
  split; [exact I|]. split; [vm_compute; reflexivity|].
  intros Hv. destruct (Hv I) as (r & Hx & _ & He).
  vm_compute in Hx. injection Hx as <-. vm_compute in He. discriminate.
Qed.

(** C6 on the sample host: a syntax error and a list of violations. *)
Lemma C6_witness :
  sample_execute "1 +" quiet_world =
    (Ok {| success := false; output := "";
           error := "Compilation error: invalid syntax (<string>, line 1)" |},
     log [EvCompile "1 +"] quiet_world) /\
  sample_execute "import os; os.system('ls')" quiet_world =
    (Ok {| success := false; output := "";
           error := "Line 1: import of 'os' is forbidden" |},
     log [EvCompile "import os; os.system('ls')"] quiet_world).
Proof.
  split.
  - exact (proj2 (proj2 (@C6_compile_failure _ _ _ sample_host bot_executor "1 +"
             quiet_world))
             (Exn "SyntaxError" "invalid syntax (<string>, line 1)" KException)
             eq_refl eq_refl).
  - exact (proj1 (@C6_compile_failure _ _ _ sample_host bot_executor
             "import os; os.system('ls')" quiet_world)
             ["Line 1: import of 'os' is forbidden"] eq_refl).
Defined.



(** C9 on the sample host: the same source twice, and a name bound by one
    call and read by the next. *)
Lemma C9_witness :
  fst (sample_execute "x = 'a'" (snd (sample_execute "x = 'a'" quiet_world))) =
    fst (sample_execute "x = 'a'" quiet_world) /\
  fst (sample_execute "print(x)" (snd (sample_execute "x = 'a'" quiet_world))) =
    Ok {| success := false; output := "";
          error := "NameError: name 'x' is not defined" |}.
Proof.
  split.
  - apply (proj1 (@C9_independent_calls _ _ _ sample_host bot_executor
                    "x = 'a'" "print(x)" quiet_world)).
    vm_compute. reflexivity.
  - vm_compute. reflexivity.
Defined.

(** C10 on the sample host: the text on stdout is dropped when stderr has
    text. *)
Lemma C10_witness :
  exists (r : ExecutionResult) (w' : @world string string bool),
    sample_execute "print('partial'); print('oops', file=sys.stderr)" quiet_world
      = (Ok r, w') /\
    success r = false /\ error r = "oops" +:+ LF /\ output r = "".
Proof.
  eexists _, _. split; [vm_compute; reflexivity|]. split; [reflexivity|].
  split; [reflexivity|].
  eapply (@C10_failure_no_output _ _ _ sample_host bot_executor
            "print('partial'); print('oops', file=sys.stderr)" quiet_world).
  - vm_compute. reflexivity.
  - reflexivity.
Defined.

(** * Further properties of [execute] and [_create_safe_globals] *)

Section Executor_properties.

Context {code_object module ambient : Type}.
Context {host_calls : @Host code_object module ambient}.

Local Abbreviation World := (@world code_object module ambient).
Local Abbreviation Event := (@event code_object module).
Local Abbreviation Namespace := (gmap string (@pyobj module)).

Implicit Types (w : World) (self : CodeExecutor) (code : string).


(** X2: when the import of an allowed module raises an [Exception] that is
    no [ImportError], the environment is not built and [execute] reports the
    failure as ["Compilation error: "] followed by the text of the exception,
    although the source compiled; the handler and the timer are not touched
    and the unit is not run. *)
Theorem import_fault_reported self code w (c : code_object) (e : exn) :
  compile_restricted code = Ok (CodeObject c) ->
  fst (_create_safe_globals self w) = Raised e ->
  isinstance_Exception e = true ->
  (exists name, name ∈ ALLOWED_MODULES /\ py_import name = Raised e /\
                isinstance_ImportError e = false) /\
  execute self code w =
    (Ok {| success := false; output := "";
           error := "Compilation error: " +:+ exc_msg e |},
     log ([EvCompile code] ++ import_log ALLOWED_MODULES) w) /\
  Forall (fun ev : Event =>
            match ev with
            | EvCompile _ | EvImport _ | EvWarning _ => True
            | _ => False
            end) ([EvCompile code] ++ import_log ALLOWED_MODULES).
Proof.
  intros Hc Hg He. rewrite create_safe_globals_outcome in Hg.
  split; [|split].
  - unfold built_globals in Hg.
    destruct (import_value ALLOWED_MODULES ∅) as [sm|e'] eqn:Hv; [done|].
    injection Hg as ->. by apply (import_value_raised _ _ _ Hv).
  - rewrite (execute_globals_raised self code w c e Hc Hg).
    unfold outer_except. by rewrite He.
  - apply Forall_cons. split; [done|].
    generalize ALLOWED_MODULES. intros names.
    induction names as [|name rest IH]; simpl; [done|].
    apply Forall_cons. split; [done|].
    destruct (py_import name) as [m|e']; [done|].
    destruct (isinstance_ImportError e'); [|done].
    apply Forall_cons. by split.
Qed.

Lemma str_app_not_empty_r (a b : string) : b <> "" -> a +:+ b <> "".
Proof. destruct a as [|ch a]; [done|]. intros _. discriminate. Qed.

(** X3: a failure that [execute] returns has a non-empty error text, except
    when the compiler hands back an object whose [errors] join to the empty
    string (an empty list, for one). *)
Theorem failure_without_text self code w (r : ExecutionResult) (w' : World) :
  execute self code w = (Ok r, w') ->
  success r = false ->
  error r = "" ->
  exists errors : list string,
    compile_restricted code = Ok (CompiledWithErrors errors) /\
    str_join LF errors = "".
Proof.
  destruct (compile_restricted code) as [[|errors|c]|e] eqn:Hc.
  - rewrite (execute_compiled_none _ _ _ Hc). intros [= <- _] _. discriminate.
  - rewrite (execute_compiled_errors _ _ _ _ Hc). intros [= <- _] _ He.
    by exists errors.
  - destruct (@built_globals _ _ _ host_calls) as [g|e] eqn:Hg.
    + rewrite (execute_run self code w c g Hc Hg). unfold report.
      destruct (raised _) as [e|].
      * destruct (isinstance_TimeoutError e); [intros [= <- _] _; discriminate|].
        destruct (isinstance_Exception e); [|done].
        intros [= <- _] _ He. simpl in He.
        by apply str_app_not_empty_r in He.
      * destruct (truthy _) eqn:Ht; intros [= <- _] Hs He; simpl in *; [|done].
        rewrite He in Ht. done.
    + rewrite (execute_globals_raised self code w c e Hc Hg). unfold outer_except.
      destruct (isinstance_Exception e); [|done].
      intros [= <- _] _. discriminate.
  - rewrite (execute_compile_raised self code w e Hc). unfold outer_except.
    destruct (isinstance_Exception e); [|done].
    intros [= <- _] _. discriminate.
Qed.

(** X4: an executor made with [timeout=0] runs the unit with no alarm
    pending: [signal.alarm(0)] arms nothing, so there is no deadline. *)
Theorem zero_timeout_no_deadline self code w (c : code_object) (g : Namespace) :
  timeout self = 0 ->
  compile_restricted code = Ok (CodeObject c) ->
  fst (_create_safe_globals self w) = Ok g ->
  fst (execute self code w) = report self (py_exec c g ∅ None (host w)) /\
  EvExec c g ∅ None ∈ history (snd (execute self code w)).
Proof.
  intros Ht Hc Hg. rewrite create_safe_globals_outcome in Hg.
  rewrite (execute_run self code w c g Hc Hg). simpl.
  unfold the_run, run_events. rewrite Ht. simpl. split; [done|].
  apply elem_of_app. right. apply elem_of_cons. right.
  apply elem_of_app. right. do 2 (apply elem_of_cons; right). by left.
Qed.

Lemma import_value_binds (names : list string) (acc sm : Namespace)
    (name : string) (m : module) :
  import_value names acc = Ok sm ->
  py_import name = Ok m ->
  name ∈ names \/ acc !! name = Some (PyModule m) ->
  sm !! name = Some (PyModule m).
Proof.
  revert acc. induction names as [|n rest IH]; intros acc; simpl.
  - intros [= ->] _ [H|H]; [by apply elem_of_nil in H | done].
  - intros Hv Hm Hin. destruct (py_import n) as [m'|e] eqn:Hn.
    + apply (IH _ Hv Hm). destruct (decide (n = name)) as [->|Hne].
      * right. rewrite lookup_insert_eq. congruence.
      * destruct Hin as [Hin|Hacc].
        -- apply elem_of_cons in Hin as [->|Hin]; [done | by left].
        -- right. by rewrite lookup_insert_ne.
    + destruct (isinstance_ImportError e); [|done].
      apply (IH _ Hv Hm). destruct Hin as [Hin|Hacc]; [|by right].
      apply elem_of_cons in Hin as [->|Hin]; [congruence | by left].
Qed.

(** X5: in the environment [_create_safe_globals] returns, every allowed
    module whose import returned is bound under its own name to the module
    that [__import__] returned. *)
Theorem allowed_module_bound self w (g : Namespace) (w' : World)
    (name : string) (m : module) :
  _create_safe_globals self w = (Ok g, w') ->
  name ∈ ALLOWED_MODULES ->
  py_import name = Ok m ->
  g !! name = Some (PyModule m) /\ lookup_name g ∅ name = Some (PyModule m).
Proof.
  rewrite create_safe_globals_eq. unfold built_globals.
  destruct (import_value ALLOWED_MODULES ∅) as [sm|e] eqn:Hv; [|done].
  intros [= <- _] Hin Hm.
  assert (Hs : sm !! name = Some (PyModule m)).
  { apply (import_value_binds _ _ _ _ _ Hv Hm). by left. }
  assert (Hg : (sm ∪ <["__name__" := PyStr "__main__"]>
                  (<["__builtins__" := PyDict safe_builtins]> ∅)) !! name
               = Some (PyModule m)).
  { by apply lookup_union_Some_l. }
  split; [done|]. unfold lookup_name. by rewrite lookup_empty, Hg.
Qed.

Lemma import_log_warnings (names : list string) (acc sm : Namespace) :
  import_value names acc = Ok sm ->
  (forall name e, name ∈ names -> py_import name = Raised e ->
     EvWarning ("Module " +:+ name +:+ " not available") ∈
       (import_log names : list Event)) /\
  (forall msg, EvWarning msg ∈ (import_log names : list Event) ->
     exists name e, name ∈ names /\ py_import name = Raised e /\
                    isinstance_ImportError e = true /\
                    msg = "Module " +:+ name +:+ " not available").
Proof.
  revert acc. induction names as [|n rest IH]; intros acc; simpl.
  - intros _. split.
    + intros name e Hin. by apply elem_of_nil in Hin.
    + intros msg Hin. by apply elem_of_nil in Hin.
  - destruct (py_import n) as [m|e0] eqn:Hn.
    + intros Hv. destruct (IH _ Hv) as [IH1 IH2]. split.
      * intros name e Hin Hr. apply elem_of_cons in Hin as [->|Hin]; [congruence|].
        apply elem_of_cons. right. by apply (IH1 name e).
      * intros msg Hin. apply elem_of_cons in Hin as [Hin|Hin]; [done|].
        destruct (IH2 msg Hin) as (name & e & Hname & Hrest).
        exists name, e. split; [by right | done].
    + destruct (isinstance_ImportError e0) eqn:He0; [|done].
      intros Hv. destruct (IH _ Hv) as [IH1 IH2]. split.
      * intros name e Hin Hr. apply elem_of_cons. right.
        apply elem_of_cons in Hin as [->|Hin]; [by left|].
        apply elem_of_cons. right. by apply (IH1 name e).
      * intros msg Hin. apply elem_of_cons in Hin as [Hin|Hin]; [done|].
        apply elem_of_cons in Hin as [Hin|Hin].
        -- injection Hin as ->. exists n, e0. split; [by left | done].
        -- destruct (IH2 msg Hin) as (name & e & Hname & Hrest).
           exists name, e. split; [by right | done].
Qed.

(** X13: when [_create_safe_globals] returns, it has logged the warning
    "Module <name> not available" for every allowed module whose import
    raised, and every warning it logged is that text for an allowed module
    whose import raised an [ImportError]. *)
Theorem failed_imports_are_logged self w (g : Namespace) (w' : World) :
  _create_safe_globals self w = (Ok g, w') ->
  exists evs : list Event,
    history w' = history w ++ evs /\
    (forall name e, name ∈ ALLOWED_MODULES -> py_import name = Raised e ->
       EvWarning ("Module " +:+ name +:+ " not available") ∈ evs) /\
    (forall msg, EvWarning msg ∈ evs ->
       exists name e, name ∈ ALLOWED_MODULES /\ py_import name = Raised e /\
                      isinstance_ImportError e = true /\
                      msg = "Module " +:+ name +:+ " not available").
Proof.
  rewrite create_safe_globals_eq. unfold built_globals.
  destruct (import_value ALLOWED_MODULES ∅) as [sm|e] eqn:Hv; [|done].
  intros [= _ <-]. exists (import_log ALLOWED_MODULES). split; [done|].
  exact (import_log_warnings _ _ _ Hv).
Qed.

End Executor_properties.

(** * Properties of the operations of [str] *)

Lemma has_char_app (c : Ascii.ascii) (a b : string) :
  has_char c (a +:+ b) = has_char c a || has_char c b.
Proof.
  induction a as [|ch a IH]; [reflexivity|].
  change (Ascii.eqb ch c || has_char c (a +:+ b)
          = (Ascii.eqb ch c || has_char c a) || has_char c b).
  rewrite IH. by destruct (Ascii.eqb ch c).
Qed.

(** Replacing [old] removes it when the replacement does not hold it. *)
Lemma replace_removes (old : Ascii.ascii) (new s : string) :
  has_char old new = false -> has_char old (str_replace_char old new s) = false.
Proof.
  intros Hnew. induction s as [|ch s IH]; [reflexivity|]. simpl.
  destruct (Ascii.eqb ch old) eqn:Hch.
  - by rewrite has_char_app, Hnew, IH.
  - simpl. by rewrite Hch, IH.
Qed.

(** Replacing [old] brings in no character that the text and the replacement
    do not hold. *)
Lemma replace_keeps_absent (c old : Ascii.ascii) (new s : string) :
  has_char c new = false -> has_char c s = false ->
  has_char c (str_replace_char old new s) = false.
Proof.
  intros Hnew. induction s as [|ch s IH]; [reflexivity|]. simpl.
  intros Hs. apply orb_false_iff in Hs as [Hc Hs].
  destruct (Ascii.eqb ch old).
  - by rewrite has_char_app, Hnew, IH.
  - simpl. by rewrite Hc, IH.
Qed.

Lemma replace_absent (old : Ascii.ascii) (new s : string) :
  has_char old s = false -> str_replace_char old new s = s.
Proof.
  induction s as [|ch s IH]; [reflexivity|]. simpl.
  intros Hs. apply orb_false_iff in Hs as [Hc Hs].
  by rewrite Hc, IH.
Qed.

Lemma html_escape_no_markup (s : string) :
  Forall (fun c => has_char c (html_escape s) = false) markup_chars.
Proof.
  unfold html_escape, markup_chars.
  set (s1 := str_replace_char "&" "&amp;" s).
  set (s2 := str_replace_char "<" "&lt;" s1).
  set (s3 := str_replace_char ">" "&gt;" s2).
  set (s4 := str_replace_char QUOTE_char "&quot;" s3).
  assert (H2 : has_char "<" s2 = false) by by apply replace_removes.
  assert (H3a : has_char "<" s3 = false) by by apply replace_keeps_absent.
  assert (H3 : has_char ">" s3 = false) by by apply replace_removes.
  assert (H4a : has_char "<" s4 = false) by by apply replace_keeps_absent.
  assert (H4b : has_char ">" s4 = false) by by apply replace_keeps_absent.
  assert (H4 : has_char QUOTE_char s4 = false) by by apply replace_removes.
  repeat (apply Forall_cons; split); [| | | |done].
  - by apply replace_keeps_absent.
  - by apply replace_keeps_absent.
  - by apply replace_keeps_absent.
  - by apply replace_removes.
Qed.

Lemma html_escape_plain (s : string) :
  has_char "&" s = false ->
  Forall (fun c => has_char c s = false) markup_chars ->
  html_escape s = s.
Proof.
  intros Ha Hm. unfold markup_chars in Hm.
  apply Forall_cons in Hm as [H1 Hm]. apply Forall_cons in Hm as [H2 Hm].
  apply Forall_cons in Hm as [H3 Hm]. apply Forall_cons in Hm as [H4 _].
  unfold html_escape.
  rewrite (replace_absent "&" _ s Ha), (replace_absent "<" _ s H1),
    (replace_absent ">" _ s H2), (replace_absent QUOTE_char _ s H3).
  by apply replace_absent.
Qed.

(** ** Splitting and joining *)

Lemma str_split_not_nil (sep : Ascii.ascii) (s : string) : str_split sep s <> [].
Proof.
  destruct s as [|ch s]; [done|]. simpl.
  destruct (Ascii.eqb ch sep); [done|]. by destruct (str_split sep s).
Qed.

Lemma str_split_app (sep : Ascii.ascii) (a b : string) :
  str_split sep (a +:+ String sep b) = str_split sep a ++ str_split sep b.
Proof.
  induction a as [|ch a IH].
  - change (str_split sep (String sep b) = [EmptyString] ++ str_split sep b).
    simpl. by rewrite Ascii.eqb_refl.
  - change (str_split sep (String ch (a +:+ String sep b))
            = str_split sep (String ch a) ++ str_split sep b).
    simpl. rewrite IH. destruct (Ascii.eqb ch sep); [done|].
    pose proof (str_split_not_nil sep a) as Hne.
    by destruct (str_split sep a).
Qed.

Lemma str_join_cons (sep x y : string) (rest : list string) :
  str_join sep (x :: y :: rest) = x +:+ sep +:+ str_join sep (y :: rest).
Proof. reflexivity. Qed.

(** Joining what [split] returned gives the text back. *)
Lemma str_join_split (sep : Ascii.ascii) (s : string) :
  str_join (String sep EmptyString) (str_split sep s) = s.
Proof.
  induction s as [|ch s IH]; [reflexivity|]. simpl.
  destruct (Ascii.eqb_spec ch sep) as [->|Hne].
  - pose proof (str_split_not_nil sep s) as Hnil.
    destruct (str_split sep s) as [|y rest] eqn:Hs; [done|].
    rewrite str_join_cons, IH. reflexivity.
  - pose proof (str_split_not_nil sep s) as Hnil.
    destruct (str_split sep s) as [|y rest] eqn:Hs; [done|].
    destruct rest as [|z rest].
    + simpl in *. by rewrite IH.
    + rewrite str_join_cons. rewrite str_join_cons in IH.
      change (String ch (y +:+ String sep EmptyString +:+ str_join (String sep EmptyString) (z :: rest))
              = String ch s).
      by rewrite IH.
Qed.

Lemma startswith_app (s prefix rest : string) :
  startswith s prefix = true -> startswith (s +:+ rest) prefix = true.
Proof.
  unfold startswith. revert s. induction prefix as [|ch p IH]; intros s.
  { intros _. by destruct (s +:+ rest). }
  destruct s as [|ch' s]; [intros H; discriminate H|].
  change (String.prefix (String ch p) (String ch' (s +:+ rest)))
    with (match Ascii.ascii_dec ch ch' with
          | left _ => String.prefix p (s +:+ rest)
          | right _ => false
          end).
  simpl. destruct (Ascii.ascii_dec ch ch'); [apply IH | done].
Qed.

Lemma endswith_refl (s : string) : endswith s s = true.
Proof.
  destruct s as [|ch s]; [reflexivity|].
  change (endswith (String ch s) (String ch s))
    with (if String.eqb (String ch s) (String ch s) then true
          else endswith s (String ch s)).
  by rewrite String.eqb_refl.
Qed.

Lemma endswith_app (a suffix : string) : endswith (a +:+ suffix) suffix = true.
Proof.
  induction a as [|ch a IH]; [apply endswith_refl|].
  change ((if String.eqb (String ch (a +:+ suffix)) suffix then true
           else endswith (a +:+ suffix) suffix) = true).
  destruct (String.eqb (String ch (a +:+ suffix)) suffix); [reflexivity | exact IH].
Qed.

Lemma str_init_app_char (a : string) (ch : Ascii.ascii) :
  str_init (a +:+ String ch EmptyString) = a.
Proof.
  induction a as [|c a IH]; [reflexivity|].
  change (str_init (String c (a +:+ String ch EmptyString)) = String c a).
  simpl. rewrite IH. by destruct a.
Qed.

(** ** White space *)

Lemma is_space2_lead (b1 b2 : Ascii.ascii) :
  is_space2 b1 b2 = true -> nat_of_ascii b1 = 194%nat.
Proof.
  unfold is_space2. intros H. apply andb_true_iff in H as [H _].
  by apply Nat.eqb_eq in H.
Qed.

Lemma is_space3_lead (b1 b2 b3 : Ascii.ascii) :
  is_space3 b1 b2 b3 = true ->
  nat_of_ascii b1 = 225%nat \/ nat_of_ascii b1 = 226%nat \/ nat_of_ascii b1 = 227%nat.
Proof.
  unfold is_space3. intros H.
  repeat (apply orb_true_iff in H as [H|H]);
    repeat (apply andb_true_iff in H as [H _]);
    apply Nat.eqb_eq in H; auto.
Qed.

Lemma py_lstrip_blank (s : string) : blank s -> py_lstrip s = EmptyString.
Proof.
  induction 1 as [|b1 s H1 _ IH|b1 b2 s H2 _ IH|b1 b2 b3 s H3 _ IH]; simpl.
  - done.
  - by rewrite H1.
  - assert (Hb1 : is_space1 b1 = false).
    { unfold is_space1. by rewrite (is_space2_lead _ _ H2). }
    by rewrite Hb1, H2.
  - assert (Hb1 : is_space1 b1 = false).
    { unfold is_space1. by destruct (is_space3_lead _ _ _ H3) as [->|[->| ->]]. }
    assert (Hb2 : is_space2 b1 b2 = false).
    { unfold is_space2. by destruct (is_space3_lead _ _ _ H3) as [->|[->| ->]]. }
    by rewrite Hb1, Hb2, H3.
Qed.

Lemma py_strip_blank (s : string) : blank s -> py_strip s = EmptyString.
Proof. intros H. unfold py_strip. by rewrite py_lstrip_blank. Qed.

(** * Properties of the chat handlers *)

Section Bot_properties.

Context {code_object module ambient net : Type}.
Context {host_calls : @Host code_object module ambient}.
Context {bot_host : @BotHost net}.

Local Abbreviation BotWorld := (@bot_world code_object module ambient net).

Implicit Types (bw : BotWorld) (self : TelegramBot) (update : Update).

Lemma framed_no_markup (heading body : string) :
  Forall (fun c => has_char c heading = false) markup_chars ->
  Forall (fun c => has_char c
                     (heading +:+ LF +:+ "```" +:+ LF +:+ html_escape body
                      +:+ LF +:+ "```") = false) markup_chars.
Proof.
  intros Hh. pose proof (html_escape_no_markup body) as Hb.
  unfold markup_chars in *.
  repeat match goal with
         | H : Forall _ (_ :: _) |- _ => apply Forall_cons in H as [? H]
         end.
  repeat (apply Forall_cons; split); [| | | |done];
    rewrite !has_char_app;
    repeat match goal with H : has_char _ _ = false |- _ => rewrite H end;
    reflexivity.
Qed.

(** What one [reply_text] adds to the log: nothing, or the call. *)
Lemma reply_text_log update (t : string) (mode : option parse_mode) bw :
  bot_log (snd (reply_text update t mode bw)) = bot_log bw \/
  bot_log (snd (reply_text update t mode bw)) = bot_log bw ++ [Called (ReplyText t mode)].
Proof.
  unfold reply_text. destruct (message update); [|by left].
  right. unfold call_telegram. by destruct (telegram _ _).
Qed.

Lemma reply_text_process update (t : string) (mode : option parse_mode) bw :
  process (snd (reply_text update t mode bw)) = process bw.
Proof.
  unfold reply_text. destruct (message update); [|done].
  unfold call_telegram. by destruct (telegram _ _).
Qed.

(** ** Invariants through the combinators *)

Lemma preserves_ret {S A : Type} (inv : S -> Prop) (a : A) : preserves inv (ret a).
Proof. by intros s Hs. Qed.

Lemma preserves_raise {S A : Type} (inv : S -> Prop) (e : exn) :
  preserves inv (@raise S A e).
Proof. by intros s Hs. Qed.

Lemma preserves_modify {S : Type} (inv : S -> Prop) (f : S -> S) :
  (forall s, inv s -> inv (f s)) -> preserves inv (modify f).
Proof. intros Hf s Hs. by apply Hf. Qed.

Lemma preserves_bind {S A B : Type} (inv : S -> Prop) (c : Py S A) (k : A -> Py S B) :
  preserves inv c -> (forall a, preserves inv (k a)) -> preserves inv (bind c k).
Proof.
  intros Hc Hk s Hs. unfold bind. specialize (Hc s Hs).
  destruct (c s) as [[a|e] s']; simpl in *; [by apply Hk | done].
Qed.

Lemma preserves_try_except {S A : Type} (inv : S -> Prop) (body : Py S A)
    (clauses : list ((exn -> bool) * (exn -> Py S A))) :
  preserves inv body ->
  Forall (fun cl => forall e, preserves inv (snd cl e)) clauses ->
  preserves inv (try_except body clauses).
Proof.
  intros Hb Hcl s Hs. unfold try_except. specialize (Hb s Hs).
  destruct (body s) as [[a|e] s']; simpl in *; [done|].
  destruct (List.find (fun cl => fst cl e) clauses) as [cl|] eqn:Hfind; [|done].
  apply find_some in Hfind as [Hin _].
  rewrite Forall_forall in Hcl. apply (Hcl cl); [|done].
  by apply list_elem_of_In.
Qed.

(** ** The replies of [_execute_and_reply] *)

Lemma escaped_since_refl bw : escaped_since bw bw.
Proof. exists []. split; [by rewrite app_nil_r | by constructor]. Qed.

Lemma escaped_since_event bw bw0 (ev : bot_event) (n : net)
    (w : @world code_object module ambient) :
  match ev with
  | Called (ReplyText t _) => escaped t
  | _ => True
  end ->
  escaped_since bw bw0 ->
  escaped_since bw {| process := w; network := n; bot_log := bot_log bw0 ++ [ev] |}.
Proof.
  intros Hev (evs & Hlog & Hsafe). exists (evs ++ [ev]). simpl.
  split; [by rewrite Hlog, app_assoc|].
  unfold replies_of. rewrite omap_app. apply Forall_app. split; [done|].
  destruct ev as [[a|t m]|msg]; simpl; [constructor | | constructor].
  apply Forall_cons. by split; [|constructor].
Qed.

Lemma reply_text_escaped bw update (t : string) (mode : option parse_mode) :
  escaped t -> preserves (escaped_since bw) (reply_text update t mode).
Proof.
  intros Ht bw0 Hbw0. unfold reply_text.
  destruct (message update); [|done].
  unfold call_telegram. destruct (telegram _ _) as [o n']. simpl.
  by apply escaped_since_event.
Qed.

Lemma send_action_escaped bw update (action : string) :
  preserves (escaped_since bw) (send_action update action).
Proof.
  intros bw0 Hbw0. unfold send_action.
  destruct (message update); [|done].
  unfold call_telegram. destruct (telegram _ _) as [o n']. simpl.
  by apply escaped_since_event.
Qed.

Lemma logger_error_escaped bw (msg : string) :
  preserves (escaped_since bw) (logger_error msg).
Proof.
  apply preserves_modify. intros bw0 Hbw0. by apply escaped_since_event.
Qed.

Lemma in_process_escaped {A : Type} bw
    (c : Py (@world code_object module ambient) A) :
  preserves (escaped_since bw) (in_process c).
Proof.
  intros bw0 (evs & Hlog & Hsafe). unfold in_process.
  destruct (c (process bw0)) as [o w']. simpl. by exists evs.
Qed.

Lemma framed_escaped (heading body : string) :
  escaped heading ->
  escaped (heading +:+ LF +:+ "```" +:+ LF +:+ html_escape body +:+ LF +:+ "```").
Proof. apply framed_no_markup. Qed.

(** X6: whatever the executed code prints or raises, and whatever the chat
    answers, every reply [_execute_and_reply] sends is free of the characters
    [<], [>], the double quote and the single quote: the text of the run
    goes through [html.escape] and the frames hold none of them. *)
Theorem replies_are_escaped self update (code : string) bw :
  exists evs : list bot_event,
    bot_log (snd (_execute_and_reply self update code bw)) = bot_log bw ++ evs /\
    Forall (fun t => Forall (fun c => has_char c t = false) markup_chars)
           (replies_of evs).
Proof.
  assert (H : preserves (escaped_since bw) (_execute_and_reply self update code)).
  { unfold _execute_and_reply.
    apply preserves_bind; [apply send_action_escaped|]. intros _.
    apply preserves_try_except.
    - apply preserves_bind; [apply in_process_escaped|]. intros result.
      destruct (success result).
      + destruct (truthy (py_strip (output result))).
        * apply reply_text_escaped, framed_escaped. by repeat constructor.
        * apply reply_text_escaped. by repeat constructor.
      + apply reply_text_escaped, framed_escaped. by repeat constructor.
    - apply Forall_cons. split; [|done]. intros e. simpl.
      apply preserves_bind; [apply logger_error_escaped|]. intros _.
      apply reply_text_escaped, framed_escaped. by repeat constructor. }
  exact (H bw (escaped_since_refl bw)).
Qed.

(** X7: a run that succeeds with an output of white space only (nothing
    printed, or only spaces and newlines) is answered with the fixed text
    "Code executed successfully (no output)", not with the output. *)
Theorem blank_output_reply self update (code : string) bw (msg : Message)
    (r : ExecutionResult) (w' : @world code_object module ambient) (n1 n2 : net) :
  message update = Some msg ->
  telegram (SendAction "typing") (network bw) = (Ok tt, n1) ->
  execute (code_executor self) code (process bw) = (Ok r, w') ->
  success r = true ->
  blank (output r) ->
  telegram (ReplyText "✅ *Code executed successfully* (no output)" (Some MARKDOWN)) n1
    = (Ok tt, n2) ->
  _execute_and_reply self update code bw =
  (Ok tt,
   {| process := w'; network := n2;
      bot_log := bot_log bw ++
        [Called (SendAction "typing");
         Called (ReplyText "✅ *Code executed successfully* (no output)"
                   (Some MARKDOWN))] |}).
Proof.
  intros Hmsg Htyping Hx Hs Hblank Hreply.
  unfold _execute_and_reply, bind, send_action, try_except, in_process, reply_text,
    call_telegram.
  rewrite Hmsg, Htyping. simpl. rewrite Hx. simpl.
  rewrite Hs, (py_strip_blank _ Hblank). simpl. rewrite Hreply. simpl.
  by rewrite <- app_assoc.
Qed.

(** X8: a run that succeeds with an output that is not blank and holds none
    of the five characters of [html.escape] is answered with that output
    unchanged between two lines of three backticks: backticks in the output
    are not escaped. *)
Theorem plain_output_reply self update (code : string) bw (msg : Message)
    (r : ExecutionResult) (w' : @world code_object module ambient) (n1 n2 : net) :
  message update = Some msg ->
  telegram (SendAction "typing") (network bw) = (Ok tt, n1) ->
  execute (code_executor self) code (process bw) = (Ok r, w') ->
  success r = true ->
  truthy (py_strip (output r)) = true ->
  has_char "&" (output r) = false ->
  Forall (fun c => has_char c (output r) = false) markup_chars ->
  telegram (ReplyText ("✅ *Output:*" +:+ LF +:+ "```" +:+ LF +:+ output r
                       +:+ LF +:+ "```") (Some MARKDOWN)) n1 = (Ok tt, n2) ->
  _execute_and_reply self update code bw =
  (Ok tt,
   {| process := w'; network := n2;
      bot_log := bot_log bw ++
        [Called (SendAction "typing");
         Called (ReplyText ("✅ *Output:*" +:+ LF +:+ "```" +:+ LF +:+ output r
                            +:+ LF +:+ "```") (Some MARKDOWN))] |}).
Proof.
  intros Hmsg Htyping Hx Hs Htext Hamp Hmarkup Hreply.
  unfold _execute_and_reply, bind, send_action, try_except, in_process, reply_text,
    call_telegram.
  rewrite Hmsg, Htyping. simpl. rewrite Hx. simpl.
  rewrite Hs, Htext, (html_escape_plain _ Hamp Hmarkup).
  simpl in Hreply |- *. rewrite Hreply. simpl.
  by rewrite <- app_assoc.
Qed.

(** ** The code [handle_message] extracts *)

Lemma truthy_app (a b : string) : truthy a = true -> truthy (a +:+ b) = true.
Proof. by destruct a. Qed.

Lemma startswith_truthy (s prefix : string) :
  truthy prefix = true -> startswith s prefix = true -> truthy s = true.
Proof. destruct prefix; [done|]. by destruct s. Qed.

Lemma str_split_no_sep (sep : Ascii.ascii) (s : string) :
  has_char sep s = false -> str_split sep s = [s].
Proof.
  induction s as [|ch s IH]; [done|]. simpl.
  intros H. apply orb_false_iff in H as [Hch Hs].
  by rewrite Hch, (IH Hs).
Qed.

Lemma LF_app (s : string) : LF +:+ s = String LF_char s.
Proof. reflexivity. Qed.

(** The lines of a block: an opening line, the lines of the body, the
    closing fence. *)
Lemma fenced_lines (first body : string) :
  has_char LF_char first = false ->
  str_split LF_char (first +:+ LF +:+ body +:+ LF +:+ "```")
  = first :: str_split LF_char body ++ ["```"].
Proof.
  intros Hfirst. rewrite !LF_app, !str_split_app.
  by rewrite (str_split_no_sep _ _ Hfirst).
Qed.

Lemma fenced_endswith (first body : string) :
  endswith (first +:+ LF +:+ body +:+ LF +:+ "```") "```" = true.
Proof.
  replace (first +:+ LF +:+ body +:+ LF +:+ "```")
    with ((first +:+ LF +:+ body +:+ LF) +:+ "```")
    by by rewrite !str_app_assoc.
  apply endswith_app.
Qed.

Lemma fenced_more_than_one_line (first : string) (lines : list string) :
  (1 <? length (first :: lines ++ ["```"]))%nat = true.
Proof.
  apply Nat.ltb_lt. simpl. rewrite length_app. simpl. lia.
Qed.

(** X9: a message made of an opening line [```python], [```py] or [```], a
    body and a closing line [```] is run as exactly the body, whatever the
    body is: the split into lines and the join give it back unchanged. *)
Theorem fenced_block_runs_body self update (context : CallbackContext) bw
    (msg : Message) (opener body : string) :
  message update = Some msg ->
  text msg = Some (opener +:+ LF +:+ body +:+ LF +:+ "```") ->
  opener ∈ FENCE_OPENERS ->
  handle_message self update context bw = _execute_and_reply self update body bw.
Proof.
  intros Hmsg Htext Hopener. unfold handle_message. rewrite Hmsg, Htext.
  assert (Hfacts : truthy opener = true /\ startswith opener "```" = true /\
                   has_char LF_char opener = false /\
                   existsb (String.eqb (py_strip opener)) FENCE_OPENERS = true).
  { unfold FENCE_OPENERS in Hopener.
    repeat (apply elem_of_cons in Hopener as [->|Hopener]; [by vm_compute|]).
    by apply elem_of_nil in Hopener. }
  destruct Hfacts as (Htruthy & Hstart & Hnolf & Hknown).
  rewrite (truthy_app _ _ Htruthy). simpl negb. cbv iota.
  rewrite (startswith_app _ _ _ Hstart), fenced_endswith. simpl andb. cbv iota.
  rewrite (fenced_lines _ _ Hnolf), fenced_more_than_one_line.
  unfold bind, first_item, last_item, ret. rewrite Hknown.
  change (drop 1 (opener :: str_split LF_char body ++ ["```"]))
    with (str_split LF_char body ++ ["```"]).
  rewrite last_snoc.
  replace (String.eqb (py_strip "```") "```") with true by by vm_compute.
  rewrite removelast_last.
  change LF with (String LF_char EmptyString). by rewrite str_join_split.
Qed.

(** X10: a message that starts and ends with three backticks and has no
    newline (a block written on one line) is dropped: nothing is run and
    nothing is replied. *)
Theorem one_line_fence_ignored self update (context : CallbackContext) bw
    (msg : Message) (message_text : string) :
  message update = Some msg ->
  text msg = Some message_text ->
  startswith message_text "```" = true ->
  endswith message_text "```" = true ->
  has_char LF_char message_text = false ->
  handle_message self update context bw = (Ok tt, bw).
Proof.
  intros Hmsg Htext Hstart Hend Hnolf. unfold handle_message.
  rewrite Hmsg, Htext, (startswith_truthy _ "```" eq_refl Hstart), Hstart, Hend.
  simpl. by rewrite (str_split_no_sep _ _ Hnolf).
Qed.

(** X11: a message between two single backticks, which does not both start
    and end with three backticks, is run as the text between them. *)
Theorem inline_code_runs_inner self update (context : CallbackContext) bw
    (msg : Message) (body : string) :
  message update = Some msg ->
  text msg = Some ("`" +:+ body +:+ "`") ->
  startswith ("`" +:+ body +:+ "`") "```" && endswith ("`" +:+ body +:+ "`") "```"
    = false ->
  handle_message self update context bw = _execute_and_reply self update body bw.
Proof.
  intros Hmsg Htext Hnot. unfold handle_message. rewrite Hmsg, Htext, Hnot.
  rewrite (truthy_app "`" (body +:+ "`") eq_refl). simpl negb. cbv iota.
  rewrite (startswith_app "`" "`" (body +:+ "`") eq_refl).
  replace ("`" +:+ body +:+ "`") with (("`" +:+ body) +:+ "`")
    by by rewrite str_app_assoc.
  rewrite endswith_app. simpl andb. cbv iota.
  replace (slice_inner (("`" +:+ body) +:+ "`")) with body; [done|].
  unfold slice_inner.
  change (str_tail (("`" +:+ body) +:+ "`")) with (body +:+ String "`" EmptyString).
  by rewrite str_init_app_char.
Qed.

(** X12: in a block whose opening line is none of [```python], [```py] and
    [```] (another language tag, or code that follows the backticks), that
    line is not removed: the code that is run starts with it. *)
Theorem unknown_opener_kept self update (context : CallbackContext) bw
    (msg : Message) (first body : string) :
  message update = Some msg ->
  text msg = Some (first +:+ LF +:+ body +:+ LF +:+ "```") ->
  startswith first "```" = true ->
  has_char LF_char first = false ->
  existsb (String.eqb (py_strip first)) FENCE_OPENERS = false ->
  handle_message self update context bw =
  _execute_and_reply self update (first +:+ LF +:+ body) bw.
Proof.
  intros Hmsg Htext Hstart Hnolf Hunknown. unfold handle_message.
  rewrite Hmsg, Htext.
  rewrite (truthy_app _ _ (startswith_truthy _ "```" eq_refl Hstart)).
  simpl negb. cbv iota.
  rewrite (startswith_app _ _ _ Hstart), fenced_endswith. simpl andb. cbv iota.
  rewrite (fenced_lines _ _ Hnolf), fenced_more_than_one_line.
  unfold bind, first_item, last_item, ret. rewrite Hunknown.
  change (first :: str_split LF_char body ++ ["```"])
    with ((first :: str_split LF_char body) ++ ["```"]).
  rewrite last_snoc.
  replace (String.eqb (py_strip "```") "```") with true by by vm_compute.
  rewrite removelast_last.
  pose proof (str_split_not_nil LF_char body) as Hne.
  pose proof (str_join_split LF_char body) as Hjoin.
  change (String LF_char EmptyString) with LF in Hjoin.
  destruct (str_split LF_char body) as [|line rest]; [done|].
  by rewrite str_join_cons, Hjoin.
Qed.

End Bot_properties.

(** * The further properties on the sample hosts *)

(** X2 on the second host: [pandas] fails to import with a [ValueError]. *)
Lemma import_fault_reported_witness :
  fst (@execute _ _ _ odd_host bot_executor "1/0" quiet_world) =
  Ok {| success := false; output := "";
        error := "Compilation error: numpy.dtype size changed" |}.
Proof.
  pose proof (@import_fault_reported _ _ _ odd_host bot_executor "1/0" quiet_world
                "1/0" (Exn "ValueError" "numpy.dtype size changed" KException)
                eq_refl eq_refl eq_refl) as (_ & Hx & _).
  by rewrite Hx.
Defined.

(** X3 on the second host: an empty list of [errors]. *)
Lemma failure_without_text_witness :
  exists errors : list string,
    odd_compile "?" = Ok (CompiledWithErrors errors) /\ str_join LF errors = "".
Proof.
  exact (@failure_without_text _ _ _ odd_host bot_executor "?" quiet_world
           {| success := false; output := ""; error := "" |}
           (log [EvCompile "?"] quiet_world) eq_refl eq_refl eq_refl).
Defined.

(** X4 on the sample host: the endless loop under [timeout=0] is not stopped
    by an alarm (the sample host ends it with an interrupt). *)
Lemma zero_timeout_no_deadline_witness :
  fst (@execute _ _ _ sample_host no_deadline_executor "while True: pass" quiet_world)
  = Raised KeyboardInterrupt.
Proof.
  destruct sample_globals_built as [g Hg].
  destruct (@zero_timeout_no_deadline _ _ _ sample_host no_deadline_executor
              "while True: pass" quiet_world "while True: pass" g
              eq_refl eq_refl Hg) as [Hx _].
  rewrite Hx. reflexivity.
Defined.

(** X5 on the sample host: [math]. *)
Lemma allowed_module_bound_witness :
  exists g : gmap string (@pyobj string),
    fst (@_create_safe_globals _ _ _ sample_host bot_executor quiet_world) = Ok g /\
    lookup_name g ∅ "math" = Some (PyModule "math").
Proof.
  destruct (@_create_safe_globals _ _ _ sample_host bot_executor quiet_world)
    as [[g|e] w'] eqn:Hg; [|by vm_compute in Hg].
  exists g. split; [done|].
  apply (@allowed_module_bound _ _ _ sample_host bot_executor quiet_world g w'
           "math" "math" Hg); [by left | reflexivity].
Defined.

(** X7 on the sample chat: [2 + 2] prints nothing. *)
Lemma blank_output_reply_witness :
  bot_log (snd (sample_execute_and_reply "2 + 2")) =
  [Called (SendAction "typing");
   Called (ReplyText "✅ *Code executed successfully* (no output)" (Some MARKDOWN))].
Proof.
  unfold sample_execute_and_reply.
  eassert (H : @_execute_and_reply _ _ _ _ sample_host sample_bot_host
                 TelegramBot_init (text_update "2 + 2") "2 + 2" quiet_chat = _).
  { eapply (@blank_output_reply _ _ _ _ sample_host sample_bot_host).
    - reflexivity.
    - reflexivity.
    - vm_compute. reflexivity.
    - reflexivity.
    - constructor.
    - reflexivity. }
  rewrite H. reflexivity.
Defined.

(** X8 on the sample chat: the greeting. *)
Lemma plain_output_reply_witness :
  bot_log (snd (sample_execute_and_reply "print('Hello, World!')")) =
  [Called (SendAction "typing");
   Called (ReplyText ("✅ *Output:*" +:+ LF +:+ "```" +:+ LF
                      +:+ ("Hello, World!" +:+ LF) +:+ LF +:+ "```")
             (Some MARKDOWN))].
Proof.
  unfold sample_execute_and_reply.
  eassert (H : @_execute_and_reply _ _ _ _ sample_host sample_bot_host
                 TelegramBot_init (text_update "print('Hello, World!')")
                 "print('Hello, World!')" quiet_chat = _).
  { eapply (@plain_output_reply _ _ _ _ sample_host sample_bot_host).
    - reflexivity.
    - reflexivity.
    - vm_compute. reflexivity.
    - reflexivity.
    - reflexivity.
    - reflexivity.
    - by repeat constructor.
    - reflexivity. }
  rewrite H. reflexivity.
Defined.

(** X9 on the sample chat: a block tagged [python]. *)
Lemma fenced_block_runs_body_witness :
  sample_handle_message (fenced "```python" "print('Hello, World!')") =
  @_execute_and_reply _ _ _ _ sample_host sample_bot_host TelegramBot_init
    (text_update (fenced "```python" "print('Hello, World!')"))
    "print('Hello, World!')" quiet_chat.
Proof.
  apply (@fenced_block_runs_body _ _ _ _ sample_host sample_bot_host TelegramBot_init
           (text_update (fenced "```python" "print('Hello, World!')")) no_args
           quiet_chat {| text := Some (fenced "```python" "print('Hello, World!')") |}
           "```python" "print('Hello, World!')"); [reflexivity | reflexivity | by left].
Defined.

(** X10 on the sample chat: a block on one line. *)
Lemma one_line_fence_ignored_witness :
  sample_handle_message "```print(1)```" = (Ok tt, quiet_chat).
Proof.
  apply (@one_line_fence_ignored _ _ _ _ sample_host sample_bot_host TelegramBot_init
           (text_update "```print(1)```") no_args quiet_chat
           {| text := Some "```print(1)```" |} "```print(1)```"); reflexivity.
Defined.

(** X11 on the sample chat: a division between single backticks. *)
Lemma inline_code_runs_inner_witness :
  sample_handle_message "`1/0`" =
  @_execute_and_reply _ _ _ _ sample_host sample_bot_host TelegramBot_init
    (text_update "`1/0`") "1/0" quiet_chat.
Proof.
  apply (@inline_code_runs_inner _ _ _ _ sample_host sample_bot_host TelegramBot_init
           (text_update "`1/0`") no_args quiet_chat {| text := Some "`1/0`" |} "1/0");
    reflexivity.
Defined.

(** X12 on the sample chat: a block tagged [js]. *)
Lemma unknown_opener_kept_witness :
  sample_handle_message (fenced "```js" "x = 'a'") =
  @_execute_and_reply _ _ _ _ sample_host sample_bot_host TelegramBot_init
    (text_update (fenced "```js" "x = 'a'")) ("```js" +:+ LF +:+ "x = 'a'") quiet_chat.
Proof.
  apply (@unknown_opener_kept _ _ _ _ sample_host sample_bot_host TelegramBot_init
           (text_update (fenced "```js" "x = 'a'")) no_args quiet_chat
           {| text := Some (fenced "```js" "x = 'a'") |} "```js" "x = 'a'");
    reflexivity.
Defined.

(** X13 on the sample host: [numpy] is not installed. *)
Lemma failed_imports_are_logged_witness :
  EvWarning "Module numpy not available" ∈
    history (snd (@_create_safe_globals _ _ _ sample_host bot_executor quiet_world)).
Proof.
  destruct (@_create_safe_globals _ _ _ sample_host bot_executor quiet_world)
    as [[g|e] w'] eqn:Hg; [|by vm_compute in Hg].
  destruct (@failed_imports_are_logged _ _ _ sample_host bot_executor quiet_world
              g w' Hg) as (evs & Hh & Hlogged & _).
  simpl. rewrite Hh. apply elem_of_app. right.
  apply (Hlogged "numpy" (Exn "ModuleNotFoundError" "No module named 'numpy'" KImport)).
  - do 2 right. by left.
  - reflexivity.
Defined.
